(** * QUIC framing protocol of the configurator

    A shallow embedding of the two implementations of the framed serial
    protocol found in the repository:

    - [pkg/protocol/quic/protocol.go]: the session object [QuicProtocol]
      with [readHeader], [readPacket], [read], [Send], [Get], [Set];
    - [pkg/controller/quic.go]: the older controller with [ReadQUIC],
      [SendQUIC], [GetQUIC], [SetQUIC].

    The transport ([io.ReadWriter]) is a script of read events, Go errors
    are an inductive type, and every operation returns an [outcome]
    together with the state it leaves behind. *)

From Stdlib Require Import ZArith Lia Strings.Byte.
From stdpp Require Import gmap list strings.

Local Open Scope string_scope.
Local Open Scope Z_scope.
Local Open Scope list_scope.

(** ** Errors and outcomes *)

(** The error values of both packages.  [ErrNew m] is [errors.New(m)],
    [ErrTagMismatch] is the [fmt.Errorf("typ (%d) != inTyp (%d)", ..)] of
    the typed get and set, [ErrTransport] any other error of the transport,
    [ErrCodec] whatever error the cbor package returns, the [io.EOF] of a
    decoder on an empty input included: no caller compares the error of a
    decoder with another error. *)
Inductive error : Type :=
| ErrShortWrite
| ErrShortRead
| ErrInvalidMagic
| ErrInvalidCommand
| errUpdatePacket
| EOF
| ErrUnexpectedEOF
| ErrNoProgress
| ErrTransport (msg : string)
| ErrCodec (msg : string)
| ErrNew (msg : string)
| ErrTagMismatch (typ inTyp : Z).

(** [err == io.EOF] *)
Definition is_EOF (e : error) : bool :=
  match e with EOF => true | _ => false end.

(** [err == errUpdatePacket] *)
Definition is_errUpdatePacket (e : error) : bool :=
  match e with errUpdatePacket => true | _ => false end.

(** How a call ends.  [Ret] is a return with a nil error, [Fail] a return
    with a non-nil error, [Panic] a run-time panic, [Blocked] a goroutine
    that waits forever on a channel or pipe nobody serves, [Fatal] the
    process exit of [log.Fatal], [OutOfFuel] a loop of the model that was
    given too few iterations. *)
Inductive outcome (A : Type) : Type :=
| Ret (a : A)
| Fail (e : error)
| Panic (msg : string)
| Blocked
| Fatal
| OutOfFuel.

Arguments Ret {A} a.
Arguments Fail {A} e.
Arguments Panic {A} msg.
Arguments Blocked {A}.
Arguments Fatal {A}.
Arguments OutOfFuel {A}.

(** Carries a result that is not a normal return to another result type. *)
Definition abort {A B : Type} (o : outcome A) : outcome B :=
  match o with
  | Ret _ => OutOfFuel
  | Fail e => Fail e
  | Panic m => Panic m
  | Blocked => Blocked
  | Fatal => Fatal
  | OutOfFuel => OutOfFuel
  end.

Definition is_Ret {A : Type} (o : outcome A) : bool :=
  match o with Ret _ => true | _ => false end.

(** State and error monad: the Go idiom
    [x, err := f(); if err != nil { return nil, err }]. *)
Definition M (S A : Type) : Type := S -> outcome A * S.

Definition ret {S A : Type} (a : A) : M S A := fun s => (Ret a, s).

Definition fail {S A : Type} (e : error) : M S A := fun s => (Fail e, s).

Definition bind {S A B : Type} (m : M S A) (k : A -> M S B) : M S B :=
  fun s =>
    match m s with
    | (Ret a, s') => k a s'
    | (o, s') => (abort o, s')
    end.

Declare Scope go_scope.
Delimit Scope go_scope with go.
Notation "x <- m ;; k" := (bind m (fun x => k))
  (at level 100, m at next level, right associativity) : go_scope.
Notation "m ;;; k" := (bind m (fun _ => k))
  (at level 100, right associativity) : go_scope.

(** ** Bytes *)

Definition byte_to_Z (b : byte) : Z := Z.of_N (Byte.to_N b).

(** The Go conversion [byte(x)] of an integer: the low eight bits. *)
Definition byte_of_Z (z : Z) : byte :=
  match Byte.of_N (Z.to_N (z mod 256)) with
  | Some b => b
  | None => x00
  end.

(** The frame magic ['#']. *)
Definition magic_byte : byte := x23.

Definition is_magic (b : byte) : bool := Byte.eqb b magic_byte.

(** ** The transport *)

(** What one [Read] of the [io.ReadWriter] can meet: bytes that have
    arrived (an empty chunk is a read of zero bytes with a nil error), an
    [io.EOF] that is not final (a serial port reports one on a read
    time-out), or another error.  When the script is used up every further
    [Read] reports [io.EOF]. *)
Inductive read_event : Type :=
| RData (bs : list byte)
| REOF
| RErr (msg : string).

(** Puts the unread part of a chunk back in front of the script. *)
Definition unread (bs : list byte) (t : list read_event) : list read_event :=
  match bs with
  | [] => t
  | _ => RData bs :: t
  end.

(** [rw.Read(buf)] with [len(buf) = k]: the bytes read, the error, and the
    rest of the script. *)
Definition Read (k : nat) (t : list read_event)
  : list byte * option error * list read_event :=
  match t with
  | [] => ([], Some EOF, [])
  | REOF :: t' => ([], Some EOF, t')
  | RErr m :: t' => ([], Some (ErrTransport m), t')
  | RData bs :: t' => (take k bs, None, unread (drop k bs) t')
  end.

(** Reads until [n] bytes are there or the transport reports an error:
    what [io.CopyN], reading through [io.LimitReader(rw, n)], takes from
    the transport.  With [n = 0] the limited reader reports its own
    end without touching the transport. *)
Fixpoint read_full (t : list read_event) (n : nat)
  : list byte * option error * list read_event :=
  match n with
  | O => ([], None, t)
  | S _ =>
      match t with
      | [] => ([], Some EOF, [])
      | REOF :: t' => ([], Some EOF, t')
      | RErr m :: t' => ([], Some (ErrTransport m), t')
      | RData bs :: t' =>
          if (length bs <=? n)%nat
          then let '(got, e, t'') := read_full t' (n - length bs) in
               (bs ++ got, e, t'')
          else (take n bs, None, RData (drop n bs) :: t')
      end
  end.

(** [io.CopyN(b, rw, n)] into a [bytes.Buffer]: the bytes appended to the
    buffer, the error, the rest of the script.  The error is nil exactly
    when [n] bytes were copied; a transport that ends early gives
    [io.EOF]. *)
Definition CopyN (t : list read_event) (n : nat)
  : list byte * option error * list read_event :=
  read_full t n.

(** Modelled from the spec: [util.ReadAtLeast] (package [pkg/util]) and the
    controller's [readAtLeast] are not among the sources.  They are taken
    to read exactly [size] bytes, retrying short reads, and to fail with
    the transport's error (an end of stream after a partial read being
    [io.ErrUnexpectedEOF], as for [io.ReadAtLeast]) when fewer than [size]
    bytes are available. *)
Definition ReadAtLeast (t : list read_event) (size : nat)
  : outcome (list byte) * list read_event :=
  match read_full t size with
  | (got, None, t') => (Ret got, t')
  | (got, Some e, t') =>
      (Fail (if is_EOF e && negb (length got =? 0)%nat
             then ErrUnexpectedEOF else e), t')
  end.

(** ** The value encoding *)

(** The cbor package is outside the protocol core: encoding and decoding
    are a service the protocol calls.  A decoder takes the bytes it is
    given and returns the first item with the bytes after it, or an
    error. *)
Inductive dec_result (A : Type) : Type :=
| DecOk (v : A) (rest : list byte)
| DecErr (msg : string).

Arguments DecOk {A} v rest.
Arguments DecErr {A} msg.

Inductive enc_result : Type :=
| EncOk (bs : list byte)
| EncErr (msg : string).

(** [TargetInfo]: only the field the reader looks at. *)
Record TargetInfo : Type := { QuicProtocolVersion : Z }.

(** The codec for values of type [V], the caller's dynamically typed
    targets ([interface{}]); value tags and commands are integers. *)
Class Cbor (V : Type) : Type := {
  encode_tag : Z -> enc_result;
  encode_value : V -> enc_result;
  decode_tag : list byte -> dec_result Z;
  decode_string : list byte -> dec_result string;
  decode_value : list byte -> dec_result V;
  decode_info : list byte -> dec_result TargetInfo
}.

(** The declarations of package [quic] that are not among the sources: the
    upper sentinel of the commands and the two flags the controller does
    not know. *)
Class QuicDecls : Type := {
  QuicCmdMax : Z;
  QuicFlagStreaming : Z;
  QuicFlagExit : Z
}.

(** The commands, flags and value tags as [pkg/controller/quic.go] declares
    them ([iota] from 0); package [quic] uses the same names for the same
    wire values. *)
Definition QuicCmdInvalid : Z := 0.
Definition QuicCmdGet : Z := 1.
Definition QuicCmdSet : Z := 2.
Definition QuicCmdLog : Z := 3.
Definition QuicCmdCalImu : Z := 4.
Definition QuicCmdBlackbox : Z := 5.

Definition QuicFlagNone : Z := 0.
Definition QuicFlagError : Z := 1.

Definition QuicValInvalid : Z := 0.
Definition QuicValInfo : Z := 1.
Definition QuicValProfile : Z := 2.
Definition QuicValDefaultProfile : Z := 3.
Definition QuicValBlackboxRate : Z := 4.

Definition quicHeaderLen : Z := 4.

(** The header fields of the three bytes after the magic:
    [header[0] & (0xff >> 3)], [header[0] >> 5] and
    [uint16(header[1])<<8 | uint16(header[2])]. *)
Definition hdr_cmd (h0 : byte) : Z := Z.land (byte_to_Z h0) (Z.shiftr 255 3).
Definition hdr_flag (h0 : byte) : Z := Z.shiftr (byte_to_Z h0) 5.
Definition hdr_len (h1 h2 : byte) : Z :=
  Z.lor (Z.shiftl (byte_to_Z h1) 8) (byte_to_Z h2).

(** The four header bytes both senders write in front of [data]:
    ['#'], [byte(cmd)], [byte((len(data) >> 8) & 0xFF)],
    [byte(len(data) & 0xFF)]. *)
Definition send_header (cmd : Z) (data : list byte) : list byte :=
  [ magic_byte;
    byte_of_Z cmd;
    byte_of_Z (Z.land (Z.shiftr (Z.of_nat (length data)) 8) 255);
    byte_of_Z (Z.land (Z.of_nat (length data)) 255) ].

(** A value a caller passes to [SendValue]: a tag or one of its own
    values. *)
Inductive dyn (V : Type) : Type :=
| DTag (t : Z)
| DVal (v : V).

Arguments DTag {V} t.
Arguments DVal {V} v.

Definition encode_dyn {V : Type} `{Cbor V} (d : dyn V) : enc_result :=
  match d with
  | DTag t => encode_tag t
  | DVal v => encode_value v
  end.

(** ** Package [quic]: [pkg/protocol/quic/protocol.go] *)

Module Quic.

(** A byte source handed to a decoder: nil, the [bytes.Buffer] of a
    packet read in one piece, or the read end [r] of the [io.Pipe] of a
    streaming packet.  A write on an [io.Pipe] returns only once a reader
    has taken the bytes, and the pipe's reader is handed out only when
    [readPacket] has returned: no byte ever crosses it, so the read end is
    described by whether the write end has been closed. *)
Inductive Reader : Type :=
| NilReader
| BufReader (bs : list byte)
| PipeReader (closed : bool).

Record QuicPacket : Type := {
  cmd : Z;
  flag : Z;
  len : Z;
  Payload : Reader
}.

(** [p.Payload = r] *)
Definition with_Payload (p : QuicPacket) (r : Reader) : QuicPacket :=
  {| cmd := cmd p; flag := flag p; len := len p; Payload := r |}.

(** The buffered channel [Log chan string]. *)
Record chan_string : Type := {
  queue : list string;
  capacity : nat;
  closed : bool
}.

(** The read side of the [io.ReadWriter] as a script, what has been
    written to it, and whether its write side is broken. *)
Record ReadWriter : Type := {
  rd : list read_event;
  wr : list byte;
  wr_fail : option string
}.

Record QuicProtocol : Type := {
  Log : chan_string;
  info : option TargetInfo;
  rw : ReadWriter
}.

(** [NewQuicProtocol]: [Log: make(chan string, 100)]. *)
Definition NewQuicProtocol (x : ReadWriter) : QuicProtocol :=
  {| Log := {| queue := []; capacity := 100; closed := false |};
     info := None;
     rw := x |}.

Definition with_rd (proto : QuicProtocol) (t : list read_event) : QuicProtocol :=
  {| Log := Log proto; info := info proto;
     rw := {| rd := t; wr := wr (rw proto); wr_fail := wr_fail (rw proto) |} |}.

Definition with_Log (proto : QuicProtocol) (c : chan_string) : QuicProtocol :=
  {| Log := c; info := info proto; rw := rw proto |}.

Definition with_info (proto : QuicProtocol) (i : TargetInfo) : QuicProtocol :=
  {| Log := Log proto; info := Some i; rw := rw proto |}.

(** Runs a reading function on the read side of [proto.rw]. *)
Definition on_rd {A : Type}
  (f : list read_event -> outcome A * list read_event) : M QuicProtocol A :=
  fun proto => let '(o, t) := f (rd (rw proto)) in (o, with_rd proto t).

(** [io.Copy(proto.rw, buf)]: the buffer is written in one piece or the
    write fails. *)
Definition rw_Write (bs : list byte) : M QuicProtocol unit :=
  fun proto =>
    match wr_fail (rw proto) with
    | Some m => (Fail (ErrTransport m), proto)
    | None =>
        (Ret tt,
         {| Log := Log proto; info := info proto;
            rw := {| rd := rd (rw proto); wr := wr (rw proto) ++ bs;
                     wr_fail := None |} |})
    end.

(** [Close]: [close(proto.Log)]; closing a closed channel panics. *)
Definition Close : M QuicProtocol unit :=
  fun proto =>
    if closed (Log proto) then (Panic "close of closed channel", proto)
    else (Ret tt,
          with_Log proto {| queue := queue (Log proto);
                            capacity := capacity (Log proto);
                            closed := true |}).

(** [select { case proto.Log <- val: default: }]: a send on a closed
    channel panics, a full channel takes the default branch. *)
Definition Log_offer (val : string) : M QuicProtocol unit :=
  fun proto =>
    if closed (Log proto) then (Panic "send on closed channel", proto)
    else if (length (queue (Log proto)) <? capacity (Log proto))%nat
    then (Ret tt,
          with_Log proto {| queue := queue (Log proto) ++ [val];
                            capacity := capacity (Log proto);
                            closed := false |})
    else (Ret tt, proto).

(** The first loop of [readHeader]: one-byte reads until a byte arrives.
    A read of zero bytes is repeated; the first byte is the magic or the
    frame is refused. *)
Fixpoint read_magic (t : list read_event) : outcome unit * list read_event :=
  match t with
  | [] => (Fail EOF, [])
  | REOF :: t' => (Fail EOF, t')
  | RErr m :: t' => (Fail (ErrTransport m), t')
  | RData [] :: t' => read_magic t'
  | RData (b :: bs) :: t' =>
      if is_magic b then (Ret tt, unread bs t')
      else (Fail ErrInvalidMagic, unread bs t')
  end.

(** [readHeader] on the read side of the transport. *)
Definition readHeader_rd (t : list read_event)
  : outcome QuicPacket * list read_event :=
  match read_magic t with
  | (Ret _, t1) =>
      match ReadAtLeast t1 (Z.to_nat (quicHeaderLen - 1)) with
      | (Ret header, t2) =>
          match header !! 0%nat, header !! 1%nat, header !! 2%nat with
          | Some h0, Some h1, Some h2 =>
              (Ret {| cmd := hdr_cmd h0; flag := hdr_flag h0;
                      len := hdr_len h1 h2; Payload := NilReader |}, t2)
          | _, _, _ => (Panic "index out of range", t2)
          end
      | (o, t2) => (abort o, t2)
      end
  | (o, t1) => (abort o, t1)
  end.

Definition readHeader : M QuicProtocol QuicPacket := on_rd readHeader_rd.

(** The buffer of [bufio.NewWriter(w)] and the limit of
    [bufio.Writer.ReadFrom] on reads of zero bytes. *)
Definition bufio_size : nat := 4096.
Definition maxConsecutiveEmptyReads : nat := 100.

(** [io.CopyN(bw, proto.rw, n)] into the [bufio.Writer] on the pipe, that
    is [bw.ReadFrom(io.LimitReader(proto.rw, n))]: [bw] is what the writer
    holds, [nr] counts the reads of zero bytes in a row.  The bytes stay in
    the buffer; once it is full the writer flushes into the pipe, where the
    write waits for a reader that does not exist. *)
Fixpoint bw_ReadFrom (t : list read_event) (n : nat) (bw : list byte) (nr : nat)
  : outcome (list byte) * list read_event :=
  if (bufio_size <=? length bw)%nat then (Blocked, t)
  else
    match n with
    | O => (Ret bw, t)
    | S _ =>
        match t with
        | [] => (Fail EOF, [])
        | REOF :: t' => (Fail EOF, t')
        | RErr m :: t' => (Fail (ErrTransport m), t')
        | RData [] :: t' =>
            if (S nr =? maxConsecutiveEmptyReads)%nat
            then (Fail ErrNoProgress, t')
            else bw_ReadFrom t' n bw (S nr)
        | RData bs :: t' =>
            let k := Nat.min (length bs) (Nat.min n (bufio_size - length bw)) in
            if (length bs <=? k)%nat
            then bw_ReadFrom t' (n - k) (bw ++ bs) 0
            else
              let bw' := bw ++ take k bs in
              let t'' := RData (drop k bs) :: t' in
              if (bufio_size <=? length bw')%nat then (Blocked, t'')
              else (Ret bw', t'')
        end
    end.

Definition bw_CopyN (t : list read_event) (n : nat) (bw : list byte)
  : outcome (list byte) * list read_event :=
  bw_ReadFrom t n bw 0.

(** The loop of [readPacket] that fills the [bytes.Buffer] [b] of a packet
    that is not streaming:
    [for b.Len() != int(p.len) { n, err := io.CopyN(b, proto.rw, ..) .. }]. *)
Fixpoint payload_loop (fuel : nat) (n : nat) (b : list byte)
  (t : list read_event) : outcome (list byte) * list read_event :=
  if (length b =? n)%nat then (Ret b, t)
  else
    match fuel with
    | O => (OutOfFuel, t)
    | S fuel' =>
        let '(got, err, t') := CopyN t (n - length b) in
        match err with
        | Some e =>
            if is_EOF e then payload_loop fuel' n (b ++ got) t'
            else (Fail e, t')
        | None =>
            if (length got =? 0)%nat then (Fail ErrShortRead, t')
            else payload_loop fuel' n (b ++ got) t'
        end
    end.

(** The loop of [readPacket] over the sub-frames of a streaming packet:
    a sub-frame of length 0 flushes [bw] into the pipe and closes it, any
    other is copied into [bw]. *)
Fixpoint stream_loop (fuel : nat) (bw : list byte) (t : list read_event)
  : outcome unit * list read_event :=
  match fuel with
  | O => (OutOfFuel, t)
  | S fuel' =>
      match readHeader_rd t with
      | (Ret h, t1) =>
          if len h =? 0
          then match bw with
               | [] => (Ret tt, t1)
               | _ :: _ => (Blocked, t1)
               end
          else
            match bw_CopyN t1 (Z.to_nat (len h)) bw with
            | (Ret bw', t2) => stream_loop fuel' bw' t2
            | (o, t2) => (abort o, t2)
            end
      | (o, t1) => (abort o, t1)
      end
  end.

(** [cbor.NewDecoder(r).Decode(v)]: the decoder sees what the reader
    gives.  A pipe whose write end is open gives nothing and never ends. *)
Definition Decode {S A : Type} (dec : list byte -> dec_result A) (r : Reader)
  : M S A :=
  fun s =>
    match r with
    | NilReader => (Panic "nil pointer dereference", s)
    | PipeReader false => (Blocked, s)
    | PipeReader true =>
        match dec [] with
        | DecOk v _ => (Ret v, s)
        | DecErr m => (Fail (ErrCodec m), s)
        end
    | BufReader bs =>
        match dec bs with
        | DecOk v _ => (Ret v, s)
        | DecErr m => (Fail (ErrCodec m), s)
        end
    end.

(** [cbor.NewDecoder(io.LimitReader(r, 1)).Decode(v)]: the decoder sees
    one byte of the reader at most, and that byte is gone from the reader
    afterwards. *)
Definition Decode1 {S A : Type} (dec : list byte -> dec_result A) (r : Reader)
  : M S (A * Reader) :=
  fun s =>
    match r with
    | NilReader => (Panic "nil pointer dereference", s)
    | PipeReader false => (Blocked, s)
    | PipeReader true =>
        match dec [] with
        | DecOk v _ => (Ret (v, PipeReader true), s)
        | DecErr m => (Fail (ErrCodec m), s)
        end
    | BufReader bs =>
        match dec (take 1 bs) with
        | DecOk v _ => (Ret (v, BufReader (drop 1 bs)), s)
        | DecErr m => (Fail (ErrCodec m), s)
        end
    end.

Section Session.

Context {V : Type} {codec : Cbor V} {decls : QuicDecls}.

Local Open Scope go_scope.

(** [proto.info == nil || proto.info.QuicProtocolVersion == 1] *)
Definition blackbox_pushed (proto : QuicProtocol) : bool :=
  match info proto with
  | None => true
  | Some i => QuicProtocolVersion i =? 1
  end.

(** [readPacket].  [bw] is the [bufio.Writer] on the write end of the
    pipe; [p.Payload = r] aliases the pipe, so the packet returned for a
    streaming frame carries the pipe as the sub-frame loop left it. *)
Definition readPacket (fuel : nat) : M QuicProtocol QuicPacket :=
  p <- readHeader ;;
  if (QuicCmdMax <=? cmd p) || (cmd p =? QuicCmdInvalid)
  then fail ErrInvalidCommand
  else
    pb <- (if flag p =? QuicFlagStreaming
           then bw <- on_rd (fun t => bw_CopyN t (Z.to_nat (len p)) []) ;;
                ret (PipeReader false, bw)
           else b <- on_rd (payload_loop fuel (Z.to_nat (len p)) []) ;;
                ret (BufReader b, [])) ;;
    let payload := fst pb in
    let bw := snd pb in
    fun proto =>
      if cmd p =? QuicCmdLog
      then (val <- Decode decode_string payload ;;
            Log_offer val ;;;
            fail errUpdatePacket) proto
      else if blackbox_pushed proto && (cmd p =? QuicCmdBlackbox)
      then match Decode decode_value payload proto with
           | (Ret _, proto') => (Fail errUpdatePacket, proto')
           | (Fail _, proto') => (Fail errUpdatePacket, proto')
           | (o, proto') => (abort o, proto')
           end
      else ((if flag p =? QuicFlagStreaming
             then on_rd (stream_loop fuel bw)
             else ret tt) ;;;
            (if flag p =? QuicFlagExit then Close else ret tt) ;;;
            ret (with_Payload p (if flag p =? QuicFlagStreaming
                                 then PipeReader true
                                 else payload))) proto.

(** [read]: packets the reader has consumed itself ([errUpdatePacket]) are
    skipped.  The mutex [packetMu] serialises the callers; the model has
    one caller at a time. *)
Fixpoint read_loop (n fuel : nat) : M QuicProtocol QuicPacket :=
  match n with
  | O => fun proto => (OutOfFuel, proto)
  | S n' =>
      fun proto =>
        match readPacket fuel proto with
        | (Fail e, proto') =>
            if is_errUpdatePacket e then read_loop n' fuel proto'
            else (Fail e, proto')
        | r => r
        end
  end.

Definition read (fuel : nat) : M QuicProtocol QuicPacket :=
  read_loop fuel fuel.

(** [Send]; [data] is what [ioutil.ReadAll(r)] returns. *)
Definition Send (fuel : nat) (c : Z) (data : list byte)
  : M QuicProtocol QuicPacket :=
  rw_Write (send_header c data ++ data) ;;;
  p <- read fuel ;;
  if flag p =? QuicFlagError
  then msg <- Decode decode_string (Payload p) ;;
       fail (ErrNew msg)
  else ret p.

(** The loop of [SendValue] over its arguments. *)
Fixpoint encode_all (vals : list (dyn V)) : enc_result :=
  match vals with
  | [] => EncOk []
  | v :: vals' =>
      match encode_dyn v with
      | EncErr m => EncErr m
      | EncOk bs =>
          match encode_all vals' with
          | EncErr m => EncErr m
          | EncOk rest => EncOk (bs ++ rest)
          end
      end
  end.

Definition SendValue (fuel : nat) (c : Z) (vals : list (dyn V))
  : M QuicProtocol QuicPacket :=
  match encode_all vals with
  | EncErr m => fail (ErrCodec m)
  | EncOk buf => Send fuel c buf
  end.

(** [Get]: the reader returned is the payload after the echoed tag. *)
Definition Get (fuel : nat) (typ : Z) : M QuicProtocol Reader :=
  p <- SendValue fuel QuicCmdGet [DTag typ] ;;
  x <- Decode1 decode_tag (Payload p) ;;
  if negb (typ =? fst x) then fail (ErrTagMismatch typ (fst x))
  else ret (snd x).

(** [GetValue]: the value decoded into the caller's target. *)
Definition GetValue (fuel : nat) (typ : Z) : M QuicProtocol V :=
  r <- Get fuel typ ;;
  Decode decode_value r.

(** [Set]; [r] is what the caller's reader holds. *)
Definition Set_ (fuel : nat) (typ : Z) (r : list byte)
  : M QuicProtocol Reader :=
  match encode_tag typ with
  | EncErr m => fail (ErrCodec m)
  | EncOk buf =>
      p <- Send fuel QuicCmdSet (buf ++ r) ;;
      x <- Decode1 decode_tag (Payload p) ;;
      if negb (typ =? fst x) then fail (ErrTagMismatch typ (fst x))
      else ret (snd x)
  end.

(** [SetValue]: the value the device answered with. *)
Definition SetValue (fuel : nat) (typ : Z) (v : V) : M QuicProtocol V :=
  match encode_value v with
  | EncErr m => fail (ErrCodec m)
  | EncOk buf =>
      r <- Set_ fuel typ buf ;;
      Decode decode_value r
  end.

(** [Info]: [GetValue(QuicValInfo, info)], then [p.info = info]. *)
Definition Info (fuel : nat) : M QuicProtocol TargetInfo :=
  r <- Get fuel QuicValInfo ;;
  i <- Decode decode_info r ;;
  fun proto => (Ret i, with_info proto i).

(** [Detect]: any error of [Info] means the device is not there. *)
Definition Detect (fuel : nat) : M QuicProtocol bool :=
  fun proto =>
    match Info fuel proto with
    | (Ret _, proto') => (Ret true, proto')
    | (Fail _, proto') => (Ret false, proto')
    | (o, proto') => (abort o, proto')
    end.

End Session.

End Quic.

(** ** Package [controller]: [pkg/controller/quic.go] *)

Module Controller.

Record quicPacket : Type := {
  cmd : Z;
  flag : Z;
  len : Z;
  payload : list byte
}.

(** One of the unbuffered channels of [quicChannel].  A caller of
    [SendQUIC] waits on it in a [select] beside [time.After]; the reader
    goroutine sends on it without blocking, which succeeds only while a
    receiver is parked.  [Parked d]: a caller waits, its timer set to
    [d] nanoseconds; [Handed p]: the reader has passed [p] to the parked
    caller; [Idle]: nobody is waiting. *)
Inductive chan_packet : Type :=
| Idle
| Parked (timer : Z)
| Handed (p : quicPacket).

(** [time.Second] in nanoseconds. *)
Definition Second : Z := 1000000000.

Section Session.

Context {V : Type} {codec : Cbor V}.

Local Open Scope go_scope.

(** The controller and the package variables [quicChannel], [QuicLog] and
    [QuicBlackbox]; [input] is what [c.readAtLeast] reads from and
    [writeChannel] what has been queued for the writer goroutine. *)
Record Controller : Type := {
  input : list read_event;
  writeChannel : list (list byte);
  quicChannel : gmap Z chan_packet;
  QuicLog : list string;
  QuicBlackbox : list V
}.

Definition with_input (c : Controller) (t : list read_event) : Controller :=
  {| input := t; writeChannel := writeChannel c;
     quicChannel := quicChannel c; QuicLog := QuicLog c;
     QuicBlackbox := QuicBlackbox c |}.

Definition with_quicChannel (c : Controller) (m : gmap Z chan_packet)
  : Controller :=
  {| input := input c; writeChannel := writeChannel c;
     quicChannel := m; QuicLog := QuicLog c;
     QuicBlackbox := QuicBlackbox c |}.

(** [c.readAtLeast(size)] *)
Definition readAtLeast (size : nat) : M Controller (list byte) :=
  fun c => let '(o, t) := ReadAtLeast (input c) size in (o, with_input c t).

(** [QuicLog <- val] on the channel of capacity 100: a full channel makes
    the reader wait for a consumer. *)
Definition QuicLog_send (val : string) : M Controller unit :=
  fun c =>
    if (length (QuicLog c) <? 100)%nat
    then (Ret tt,
          {| input := input c; writeChannel := writeChannel c;
             quicChannel := quicChannel c; QuicLog := QuicLog c ++ [val];
             QuicBlackbox := QuicBlackbox c |})
    else (Blocked, c).

(** [QuicBlackbox <- val] *)
Definition QuicBlackbox_send (val : V) : M Controller unit :=
  fun c =>
    if (length (QuicBlackbox c) <? 100)%nat
    then (Ret tt,
          {| input := input c; writeChannel := writeChannel c;
             quicChannel := quicChannel c; QuicLog := QuicLog c;
             QuicBlackbox := QuicBlackbox c ++ [val] |})
    else (Blocked, c).

(** [select { case quicChannel[cmd] <- packet: default: }]: the packet is
    handed over when a caller is parked on the channel and dropped
    otherwise (no channel, nobody waiting, or a packet handed over
    already). *)
Definition dispatch (packet : quicPacket) : M Controller unit :=
  fun c =>
    match quicChannel c !! cmd packet with
    | Some (Parked _) =>
        (Ret tt,
         with_quicChannel c (<[cmd packet := Handed packet]> (quicChannel c)))
    | _ => (Ret tt, c)
    end.

(** [ReadQUIC]; it is called once the magic byte has been read. *)
Definition ReadQUIC : M Controller unit :=
  header <- readAtLeast (Z.to_nat (quicHeaderLen - 1)) ;;
  match header !! 0%nat, header !! 1%nat, header !! 2%nat with
  | Some h0, Some h1, Some h2 =>
      let cmd_ := hdr_cmd h0 in
      let flag_ := hdr_flag h0 in
      let payloadLen := hdr_len h1 h2 in
      payload_ <- readAtLeast (Z.to_nat payloadLen) ;;
      if negb (length payload_ =? Z.to_nat payloadLen)%nat
      then fun c => (Fatal, c)
      else
        let packet := {| cmd := cmd_; flag := flag_; len := payloadLen;
                         payload := payload_ |} in
        if cmd_ =? QuicCmdLog
        then match decode_string payload_ with
             | DecErr _ => fun c => (Fatal, c)
             | DecOk val _ => QuicLog_send val
             end
        else if cmd_ =? QuicCmdBlackbox
        then match decode_value payload_ with
             | DecErr _ => fun c => (Fatal, c)
             | DecOk val _ => QuicBlackbox_send val
             end
        else dispatch packet
  | _, _, _ => fun c => (Panic "index out of range", c)
  end.

(** The reader goroutine: [ReadQUIC] called [n] times, until one call
    does not return nil. *)
Fixpoint reader_runs (n : nat) : M Controller unit :=
  match n with
  | O => ret tt
  | S n' => ReadQUIC ;;; reader_runs n'
  end.

(** The first half of [SendQUIC]: the frame is built, the channel of the
    command is made if there is none, the frame is queued for the writer,
    and the caller parks in the [select] with
    [time.After(1 * time.Second)]. *)
Definition SendQUIC_send (c_ : Z) (data : list byte) (c : Controller)
  : Controller :=
  let buf := send_header c_ data ++ data in
  {| input := input c;
     writeChannel := writeChannel c ++ [buf];
     quicChannel := <[c_ := Parked (1 * Second)]> (quicChannel c);
     QuicLog := QuicLog c;
     QuicBlackbox := QuicBlackbox c |}.

(** The [select] of [SendQUIC] when it resumes: with the packet the reader
    has handed over, or else with the timer. *)
Definition SendQUIC_select (c_ : Z) : M Controller quicPacket :=
  fun c =>
    let c' := with_quicChannel c (<[c_ := Idle]> (quicChannel c)) in
    match quicChannel c !! c_ with
    | Some (Handed p) =>
        if flag p =? QuicFlagError
        then match decode_string (payload p) with
             | DecErr m => (Fail (ErrCodec m), c')
             | DecOk msg _ => (Fail (ErrNew msg), c')
             end
        else (Ret p, c')
    | _ => (Fail (ErrNew "quic recive timeout"), c')
    end.

(** [SendQUIC]; [window] is the number of calls of [ReadQUIC] the reader
    goroutine completes while the caller waits in its [select]. *)
Definition SendQUIC (window : nat) (c_ : Z) (data : list byte)
  : M Controller quicPacket :=
  fun c =>
    match reader_runs window (SendQUIC_send c_ data c) with
    | (Fatal, c') => (Fatal, c')
    | (_, c') => SendQUIC_select c_ c'
    end.

(** The check both [GetQUIC] and [SetQUIC] make on the reply: one decoder
    over [p.payload] decodes the echoed tag, then the value. *)
Definition decode_reply (typ : Z) (p : quicPacket) : M Controller V :=
  match decode_tag (payload p) with
  | DecErr m => fail (ErrCodec m)
  | DecOk inTyp rest =>
      if negb (typ =? inTyp) then fail (ErrTagMismatch typ inTyp)
      else match decode_value rest with
           | DecErr m => fail (ErrCodec m)
           | DecOk v _ => ret v
           end
  end.

Definition GetQUIC (window : nat) (typ : Z) : M Controller V :=
  match encode_tag typ with
  | EncErr m => fail (ErrCodec m)
  | EncOk req =>
      p <- SendQUIC window QuicCmdGet req ;;
      decode_reply typ p
  end.


End Session.

End Controller.

(** ** A small codec to run the model on concrete transports *)

(** The one-byte unsigned integers (0 to 23) and the text strings shorter
    than 24 bytes of CBOR; values and the protocol version of the device
    information are such integers. *)
Module TinyCbor.

Definition enc_uint (z : Z) : enc_result :=
  if (0 <=? z) && (z <? 24) then EncOk [byte_of_Z z]
  else EncErr "unsupported integer".

Definition dec_uint (bs : list byte) : dec_result Z :=
  match bs with
  | [] => DecErr "EOF"
  | b :: rest =>
      if byte_to_Z b <? 24 then DecOk (byte_to_Z b) rest
      else DecErr "cannot unmarshal into an unsigned integer"
  end.

Definition dec_text (bs : list byte) : dec_result string :=
  match bs with
  | [] => DecErr "EOF"
  | b :: rest =>
      let n := byte_to_Z b - 96 in
      if (0 <=? n) && (n <? 24) && (Z.to_nat n <=? length rest)%nat
      then DecOk (String.string_of_list_byte (take (Z.to_nat n) rest))
                 (drop (Z.to_nat n) rest)
      else DecErr "cannot unmarshal into a string"
  end.

Definition dec_info (bs : list byte) : dec_result TargetInfo :=
  match dec_uint bs with
  | DecOk v rest => DecOk {| QuicProtocolVersion := v |} rest
  | DecErr m => DecErr m
  end.

#[export] Instance codec : Cbor Z := {|
  encode_tag := enc_uint;
  encode_value := enc_uint;
  decode_tag := dec_uint;
  decode_string := dec_text;
  decode_value := dec_uint;
  decode_info := dec_info
|}.

(** Nine commands, and the flags numbered on from [QuicFlagError]. *)
#[export] Instance decls : QuicDecls := {|
  QuicCmdMax := 9;
  QuicFlagStreaming := 2;
  QuicFlagExit := 3
|}.

(** A session on a transport that delivers [t]. *)
Definition session (t : list read_event) : Quic.QuicProtocol :=
  Quic.NewQuicProtocol {| Quic.rd := t; Quic.wr := []; Quic.wr_fail := None |}.

End TinyCbor.

(** ** Notions used in the statements *)

(** The test of [readPacket] on the command of a header:
    [p.cmd >= QuicCmdMax || p.cmd == QuicCmdInvalid]. *)
Definition cmd_refused {decls : QuicDecls} (c : Z) : bool :=
  (QuicCmdMax <=? c) || (c =? QuicCmdInvalid).

(** An operation of the session that leaves the cached device information
    and the write side of the transport as they are. *)
Definition reads_only {A : Type} (m : M Quic.QuicProtocol A) : Prop :=
  forall proto,
    Quic.info (snd (m proto)) = Quic.info proto /\
    Quic.wr (Quic.rw (snd (m proto))) = Quic.wr (Quic.rw proto) /\
    Quic.wr_fail (Quic.rw (snd (m proto))) = Quic.wr_fail (Quic.rw proto).

(** The bytes a script delivers, in order. *)
Fixpoint bytes_of (t : list read_event) : list byte :=
  match t with
  | [] => []
  | RData bs :: t' => bs ++ bytes_of t'
  | REOF :: t' => bytes_of t'
  | RErr _ :: t' => bytes_of t'
  end.

(** A script on which the transport reports no error but [io.EOF]. *)
Fixpoint error_free (t : list read_event) : bool :=
  match t with
  | [] => true
  | RErr _ :: _ => false
  | RData _ :: t' => error_free t'
  | REOF :: t' => error_free t'
  end.

(** The frames [Send] writes for the payloads [ds] under the command [c],
    one after the other. *)
Fixpoint sent_frames (c : Z) (ds : list (list byte)) : list byte :=
  match ds with
  | [] => []
  | d :: ds' => send_header c d ++ d ++ sent_frames c ds'
  end.

(** ** Concrete transports *)

Module Samples.

(** A reply to [Get] announcing two payload bytes of which one arrives
    before the transport ends. *)
Definition short_payload : list read_event :=
  [RData [x23; x01; x00; x02; x07]].

(** One byte of noise in front of a frame with an empty payload. *)
Definition noise_then_frame : list read_event :=
  [RData [x00; x23; x01; x00; x00]].

(** A reply to [Get] that echoes tag 1 and carries the value 7. *)
Definition get_reply : list read_event :=
  [RData [x23; x01; x00; x02; x01; x07]].

(** An empty reply to [Get]. *)
Definition empty_reply : list read_event :=
  [RData [x23; x01; x00; x00]].

(** A reply with the [Error] flag whose payload is the text "hi". *)
Definition error_reply : list read_event :=
  [RData [x23; x21; x00; x03; x62; x68; x69]].

(** The byte 7 sent as the payload of a reply to [Get]: in one frame, and
    as a streaming frame followed by the sub-frame of length 0. *)
Definition plain_byte : list read_event :=
  [RData [x23; x01; x00; x01; x07]].

Definition streamed_byte : list read_event :=
  [RData [x23; x41; x00; x01; x07; x23; x41; x00; x00]].

(** A streaming reply with no payload at all. *)
Definition streamed_nothing : list read_event :=
  [RData [x23; x41; x00; x00; x23; x41; x00; x00]].

(** A [Log] packet, and a [Blackbox] packet, whose payload is the one
    byte 0xff, which is no CBOR item; the reply to [Get] follows. *)
Definition bad_log_then_reply : list read_event :=
  [RData [x23; x03; x00; x01; xff; x23; x01; x00; x02; x01; x07]].

Definition bad_blackbox_then_reply : list read_event :=
  [RData [x23; x05; x00; x01; xff; x23; x01; x00; x02; x01; x07]].

(** A packet with the [Exit] flag of the sample declarations. *)
Definition exit_packet : list read_event :=
  [RData [x23; x61; x00; x00]].

(** What the controller's reader sees, the magic read already: a log
    line "hi", a reply to [Get] with the [Error] flag and the text "hi",
    and a log packet whose payload is no CBOR item. *)
Definition log_line : list read_event :=
  [RData [x03; x00; x03; x62; x68; x69]].

Definition controller_error_reply : list read_event :=
  [RData [x21; x00; x03; x62; x68; x69]].

Definition controller_get_reply : list read_event :=
  [RData [x01; x00; x02; x01; x07]].

Definition controller_bad_log : list read_event :=
  [RData [x03; x00; x01; xff]].

(** A controller with nothing queued and no channel made. *)
Definition controller (t : list read_event) : Controller.Controller (V := Z) :=
  {| Controller.input := t;
     Controller.writeChannel := [];
     Controller.quicChannel := ∅;
     Controller.QuicLog := [];
     Controller.QuicBlackbox := [] |}.

(** Two payload bytes of three, then a failure of the transport. *)
Definition broken_payload : list read_event :=
  [RData [x01]; REOF; RData [x07]; RErr "device removed"; RData [x09]].

(** A log line "hi" as a plain packet and as a streaming packet. *)
Definition log_packet : list read_event :=
  [RData [x23; x03; x00; x03; x62; x68; x69]].

Definition streaming_log_packet : list read_event :=
  [RData [x23; x43; x00; x03; x62; x68; x69]].

(** A payload one byte too long for the length field. *)
Definition oversized : list byte := repeat x00 (Z.to_nat 65536).

End Samples.

(** * Properties *)

(** ** The transport *)

Lemma unread_app (bs more : list byte) (t : list read_event) :
  bs <> [] -> unread (bs ++ more) t = RData (bs ++ more) :: t.
Proof. destruct bs as [|b bs]; [congruence | reflexivity]. Qed.

Lemma read_full_0 (t : list read_event) : read_full t 0 = ([], None, t).
Proof. destruct t; reflexivity. Qed.

(** [io.CopyN] returns a nil error exactly when it has copied [n] bytes,
    and never copies more. *)
Lemma read_full_count (t : list read_event) :
  forall n got e t',
    read_full t n = (got, e, t') ->
    (length got <= n)%nat /\ (e = None <-> length got = n).
Proof.
  induction t as [|ev t IH]; intros n got e t' Hr.
  - destruct n; simpl in Hr; inversion Hr; subst; simpl;
      (split; [lia | split; intros; (congruence || lia)]).
  - destruct n as [|n].
    + simpl in Hr. inversion Hr; subst. simpl. split; [lia | tauto].
    + destruct ev as [bs | | m].
      * cbn [read_full] in Hr.
        destruct (length bs <=? S n)%nat eqn:Hle.
        -- apply Nat.leb_le in Hle.
           destruct (read_full t (S n - length bs)) as [[g e0] t0] eqn:Hrec.
           inversion Hr; subst.
           destruct (IH _ _ _ _ Hrec) as [Hlen Hiff].
           rewrite length_app. split; [lia |].
           rewrite Hiff. lia.
        -- apply Nat.leb_gt in Hle. inversion Hr; subst.
           rewrite length_take. split; [lia |].
           split; intros; [lia | reflexivity].
      * simpl in Hr. inversion Hr; subst. simpl.
        split; [lia | split; intros; (congruence || lia)].
      * simpl in Hr. inversion Hr; subst. simpl.
        split; [lia | split; intros; (congruence || lia)].
Qed.

(** A chunk that holds the bytes asked for gives them in one piece. *)
Lemma read_full_chunk (bs more : list byte) (t : list read_event) :
  bs <> [] ->
  read_full (RData (bs ++ more) :: t) (length bs) = (bs, None, unread more t).
Proof.
  intros Hne. destruct bs as [|b bs]; [congruence |].
  cbn [read_full length].
  destruct more as [|m more].
  - rewrite app_nil_r. cbn [length].
    rewrite Nat.leb_refl, Nat.sub_diag, read_full_0.
    rewrite app_nil_r. reflexivity.
  - replace (length ((b :: bs) ++ m :: more) <=? S (length bs))%nat with false.
    + change (S (length bs)) with (length (b :: bs)).
      rewrite take_app_length, drop_app_length. reflexivity.
    + symmetry. apply Nat.leb_gt. rewrite length_app. simpl. lia.
Qed.

(** Once the script is used up the transport reports [io.EOF] for ever. *)
Lemma read_full_exhausted (n : nat) :
  read_full [] (S n) = ([], Some EOF, []).
Proof. reflexivity. Qed.

(** ** [readHeader] *)

(** The loop of [readHeader] as the source writes it, one [Read] into a
    buffer of one byte per turn. *)
Lemma read_magic_Read (t : list read_event) :
  Quic.read_magic t =
  match Read 1 t with
  | (_, Some e, t') => (Fail e, t')
  | ([], None, t') => Quic.read_magic t'
  | (b :: _, None, t') =>
      if is_magic b then (Ret tt, t') else (Fail ErrInvalidMagic, t')
  end.
Proof.
  destruct t as [|[[|b bs]| |m] t]; reflexivity.
Qed.

Lemma read_magic_empties (k : nat) (t : list read_event) :
  Quic.read_magic (repeat (RData []) k ++ t) = Quic.read_magic t.
Proof. induction k as [|k IH]; [reflexivity | exact IH]. Qed.

Lemma is_magic_spec (b : byte) : is_magic b = true <-> b = magic_byte.
Proof.
  unfold is_magic. split.
  - intros Hb. apply Byte.byte_dec_bl in Hb. exact Hb.
  - intros ->. reflexivity.
Qed.

Lemma readHeader_rd_frame (h0 h1 h2 : byte) (more : list byte)
  (t : list read_event) :
  Quic.readHeader_rd (RData (magic_byte :: h0 :: h1 :: h2 :: more) :: t) =
  (Ret {| Quic.cmd := hdr_cmd h0; Quic.flag := hdr_flag h0;
          Quic.len := hdr_len h1 h2; Quic.Payload := Quic.NilReader |},
   unread more t).
Proof.
  unfold Quic.readHeader_rd. cbn [Quic.read_magic].
  change (is_magic magic_byte) with true. cbn iota.
  change (unread (h0 :: h1 :: h2 :: more) t)
    with (RData ([h0; h1; h2] ++ more) :: t).
  unfold ReadAtLeast.
  change (Z.to_nat (quicHeaderLen - 1)) with (length [h0; h1; h2]).
  rewrite read_full_chunk by discriminate. reflexivity.
Qed.

Lemma readHeader_frame (proto : Quic.QuicProtocol) (k : nat)
  (h0 h1 h2 : byte) (more : list byte) (t : list read_event) :
  Quic.rd (Quic.rw proto) =
    repeat (RData []) k ++ RData (magic_byte :: h0 :: h1 :: h2 :: more) :: t ->
  Quic.readHeader proto =
  (Ret {| Quic.cmd := hdr_cmd h0; Quic.flag := hdr_flag h0;
          Quic.len := hdr_len h1 h2; Quic.Payload := Quic.NilReader |},
   Quic.with_rd proto (unread more t)).
Proof.
  intros Hrd. unfold Quic.readHeader, Quic.on_rd. rewrite Hrd.
  assert (Hk : Quic.readHeader_rd
                 (repeat (RData []) k ++
                  RData (magic_byte :: h0 :: h1 :: h2 :: more) :: t) =
               Quic.readHeader_rd
                 (RData (magic_byte :: h0 :: h1 :: h2 :: more) :: t)).
  { unfold Quic.readHeader_rd. rewrite read_magic_empties. reflexivity. }
  rewrite Hk, readHeader_rd_frame. reflexivity.
Qed.

(** [readHeader] touches the read side of the transport only. *)
Lemma readHeader_frame_rule (proto proto1 : Quic.QuicProtocol)
  (o : outcome Quic.QuicPacket) :
  Quic.readHeader proto = (o, proto1) ->
  exists t, proto1 = Quic.with_rd proto t.
Proof.
  unfold Quic.readHeader, Quic.on_rd.
  destruct (Quic.readHeader_rd (Quic.rd (Quic.rw proto))) as [o' t].
  intros Heq. inversion Heq. eauto.
Qed.

(** ** The payload loop *)

(** The errors of [io.CopyN] are those of the transport. *)
Lemma read_full_error (t : list read_event) :
  forall n got e t',
    read_full t n = (got, Some e, t') ->
    e = EOF \/ exists m, e = ErrTransport m.
Proof.
  induction t as [|ev t IH]; intros n got e t' Hr.
  - destruct n; simpl in Hr; inversion Hr; auto.
  - destruct n as [|n]; [simpl in Hr; inversion Hr |].
    destruct ev as [bs | | m]; cbn [read_full] in Hr.
    + destruct (length bs <=? S n)%nat; [| inversion Hr].
      destruct (read_full t (S n - length bs)) as [[g e0] t0] eqn:Hrec.
      inversion Hr; subst. eapply IH. exact Hrec.
    + inversion Hr; auto.
    + inversion Hr; eauto.
Qed.

(** On a transport that has ended the loop makes no progress: each turn
    gets [io.EOF] from [io.CopyN] and goes round again. *)
Lemma payload_loop_exhausted (fuel n : nat) :
  forall b, (length b < n)%nat ->
  Quic.payload_loop fuel n b [] = (OutOfFuel, []).
Proof.
  induction fuel as [|fuel IH]; intros b Hb; cbn [Quic.payload_loop].
  - replace (length b =? n)%nat with false
      by (symmetry; apply Nat.eqb_neq; lia).
    reflexivity.
  - replace (length b =? n)%nat with false
      by (symmetry; apply Nat.eqb_neq; lia).
    unfold CopyN. destruct (n - length b)%nat as [|m] eqn:Hm; [lia |].
    rewrite read_full_exhausted. cbn [is_EOF].
    rewrite app_nil_r. apply IH. exact Hb.
Qed.

(** No turn of the loop reaches [return nil, ErrShortRead]: a nil error
    of [io.CopyN] means that all the bytes asked for were copied, and at
    least one is asked for. *)
Lemma payload_loop_never_short_read (fuel n : nat) :
  forall b t, (length b <= n)%nat ->
  fst (Quic.payload_loop fuel n b t) <> Fail ErrShortRead.
Proof.
  induction fuel as [|fuel IH]; intros b t Hb; cbn [Quic.payload_loop].
  - destruct (length b =? n)%nat; simpl; discriminate.
  - destruct (length b =? n)%nat eqn:Hn; [simpl; discriminate |].
    apply Nat.eqb_neq in Hn.
    unfold CopyN.
    destruct (read_full t (n - length b)) as [[got e] t'] eqn:Hr.
    destruct (read_full_count _ _ _ _ _ Hr) as [Hlen Hiff].
    destruct e as [e|].
    + destruct (is_EOF e) eqn:He.
      * apply IH. rewrite length_app. lia.
      * simpl. destruct (read_full_error _ _ _ _ _ Hr) as [-> | [m ->]];
          discriminate.
    + assert (length got = (n - length b)%nat) by (apply Hiff; reflexivity).
      replace (length got =? 0)%nat with false
        by (symmetry; apply Nat.eqb_neq; lia).
      apply IH. rewrite length_app. lia.
Qed.

(** A payload that has arrived is read in one turn. *)
Lemma payload_loop_chunk (fuel : nat) (bs more : list byte)
  (t : list read_event) :
  Quic.payload_loop (S fuel) (length bs) [] (unread (bs ++ more) t) =
  (Ret bs, unread more t).
Proof.
  destruct bs as [|b bs]; [reflexivity |].
  rewrite unread_app by discriminate.
  cbn [Quic.payload_loop length Nat.eqb]. unfold CopyN.
  rewrite Nat.sub_0_r.
  change (S (length bs)) with (length (b :: bs)).
  rewrite read_full_chunk by discriminate.
  replace (length (b :: bs) =? 0)%nat with false by reflexivity.
  cbn [app]. destruct fuel; cbn [Quic.payload_loop];
    rewrite Nat.eqb_refl; reflexivity.
Qed.

(** ** [readPacket] *)

Section Facts.

Context {V : Type} {codec : Cbor V} {decls : QuicDecls}.

Local Open Scope go_scope.

(** A packet that is not streaming and whose payload loop does not
    return the payload ends [readPacket] the same way. *)
Lemma readPacket_payload_abort (fuel : nat) (proto proto1 : Quic.QuicProtocol)
  (p : Quic.QuicPacket) (o : outcome (list byte)) (t : list read_event) :
  Quic.readHeader proto = (Ret p, proto1) ->
  cmd_refused (Quic.cmd p) = false ->
  (Quic.flag p =? QuicFlagStreaming) = false ->
  Quic.payload_loop fuel (Z.to_nat (Quic.len p)) [] (Quic.rd (Quic.rw proto1))
    = (o, t) ->
  is_Ret o = false ->
  Quic.readPacket fuel proto = (abort o, Quic.with_rd proto1 t).
Proof.
  intros Hh Hc Hs Hp Ho. unfold cmd_refused in Hc.
  unfold Quic.readPacket, bind at 1. rewrite Hh, Hc.
  unfold bind at 1. rewrite Hs. unfold bind at 1, Quic.on_rd. rewrite Hp.
  destruct o; try reflexivity. discriminate.
Qed.

(** A packet that is neither streaming nor taken by the reader itself is
    returned with its payload in a buffer, after the [Close] an [Exit]
    flag asks for. *)
Lemma readPacket_reply (fuel : nat) (proto proto1 : Quic.QuicProtocol)
  (p : Quic.QuicPacket) (b : list byte) (t : list read_event) :
  Quic.readHeader proto = (Ret p, proto1) ->
  cmd_refused (Quic.cmd p) = false ->
  (Quic.flag p =? QuicFlagStreaming) = false ->
  Quic.payload_loop fuel (Z.to_nat (Quic.len p)) [] (Quic.rd (Quic.rw proto1))
    = (Ret b, t) ->
  (Quic.cmd p =? QuicCmdLog) = false ->
  Quic.blackbox_pushed proto1 && (Quic.cmd p =? QuicCmdBlackbox) = false ->
  Quic.readPacket fuel proto =
  ((if Quic.flag p =? QuicFlagExit then Quic.Close else ret tt) ;;;
   ret (Quic.with_Payload p (Quic.BufReader b))) (Quic.with_rd proto1 t).
Proof.
  intros Hh Hc Hs Hp Hl Hb. unfold cmd_refused in Hc.
  unfold Quic.readPacket, bind at 1. rewrite Hh, Hc.
  unfold bind at 1. rewrite Hs. unfold bind at 1, Quic.on_rd. rewrite Hp.
  cbn [ret fst snd]. rewrite Hl.
  replace (Quic.blackbox_pushed (Quic.with_rd proto1 t))
    with (Quic.blackbox_pushed proto1) by reflexivity.
  rewrite Hb. reflexivity.
Qed.

(** A [Log] packet that is not streaming: its payload is decoded as a
    string, offered to the [Log] channel, and the packet is consumed. *)
Lemma readPacket_log (fuel : nat) (proto proto1 : Quic.QuicProtocol)
  (p : Quic.QuicPacket) (b : list byte) (t : list read_event) :
  Quic.readHeader proto = (Ret p, proto1) ->
  cmd_refused (Quic.cmd p) = false ->
  (Quic.flag p =? QuicFlagStreaming) = false ->
  Quic.payload_loop fuel (Z.to_nat (Quic.len p)) [] (Quic.rd (Quic.rw proto1))
    = (Ret b, t) ->
  (Quic.cmd p =? QuicCmdLog) = true ->
  Quic.readPacket fuel proto =
  (val <- Quic.Decode decode_string (Quic.BufReader b) ;;
   Quic.Log_offer val ;;;
   fail errUpdatePacket) (Quic.with_rd proto1 t).
Proof.
  intros Hh Hc Hs Hp Hl. unfold cmd_refused in Hc.
  unfold Quic.readPacket, bind at 1. rewrite Hh, Hc.
  unfold bind at 1. rewrite Hs. unfold bind at 1, Quic.on_rd. rewrite Hp.
  cbn [ret fst snd]. rewrite Hl. reflexivity.
Qed.

(** A telemetry packet the reader takes itself is consumed whether its
    payload decodes or not. *)
Lemma readPacket_blackbox (fuel : nat) (proto proto1 : Quic.QuicProtocol)
  (p : Quic.QuicPacket) (b : list byte) (t : list read_event) :
  Quic.readHeader proto = (Ret p, proto1) ->
  cmd_refused (Quic.cmd p) = false ->
  (Quic.flag p =? QuicFlagStreaming) = false ->
  Quic.payload_loop fuel (Z.to_nat (Quic.len p)) [] (Quic.rd (Quic.rw proto1))
    = (Ret b, t) ->
  Quic.cmd p = QuicCmdBlackbox ->
  Quic.blackbox_pushed proto1 = true ->
  Quic.readPacket fuel proto = (Fail errUpdatePacket, Quic.with_rd proto1 t).
Proof.
  intros Hh Hc Hs Hp Hb Hi. unfold cmd_refused in Hc.
  unfold Quic.readPacket, bind at 1. rewrite Hh, Hc.
  unfold bind at 1. rewrite Hs. unfold bind at 1, Quic.on_rd. rewrite Hp.
  cbn [ret fst snd]. rewrite Hb.
  replace (Quic.blackbox_pushed (Quic.with_rd proto1 t))
    with (Quic.blackbox_pushed proto1) by reflexivity.
  rewrite Hi. cbn. destruct (decode_value b); reflexivity.
Qed.


(** ** The claims about package [quic] *)

(** C3 (as amended): reads of zero bytes are repeated, and the first byte
    that arrives decides: if it is the magic ['#'] the three bytes after it
    are decoded as the header, and if it is any other byte [readHeader]
    returns [ErrInvalidMagic] at once, the bytes after it still unread. *)
Theorem readHeader_first_byte_decides :
  forall (proto : Quic.QuicProtocol) (k : nat) (b h0 h1 h2 : byte)
         (more : list byte) (t : list read_event),
    Quic.rd (Quic.rw proto) =
      repeat (RData []) k ++ RData (b :: h0 :: h1 :: h2 :: more) :: t ->
    (b = magic_byte ->
     Quic.readHeader proto =
     (Ret {| Quic.cmd := hdr_cmd h0; Quic.flag := hdr_flag h0;
             Quic.len := hdr_len h1 h2; Quic.Payload := Quic.NilReader |},
      Quic.with_rd proto (unread more t))) /\
    (b <> magic_byte ->
     Quic.readHeader proto =
     (Fail ErrInvalidMagic,
      Quic.with_rd proto (RData (h0 :: h1 :: h2 :: more) :: t))).
Proof.
  intros proto k b h0 h1 h2 more t Hrd. split.
  - intros ->. eapply readHeader_frame. exact Hrd.
  - intros Hb. unfold Quic.readHeader, Quic.on_rd. rewrite Hrd.
    unfold Quic.readHeader_rd. rewrite read_magic_empties.
    cbn [Quic.read_magic].
    destruct (is_magic b) eqn:Hm.
    + apply is_magic_spec in Hm. contradiction.
    + reflexivity.
Qed.

(** The decoders leave the session as it is. *)
Lemma Decode1_state {S A : Type} (dec : list byte -> dec_result A)
  (r : Quic.Reader) (s : S) :
  snd (Quic.Decode1 dec r s) = s.
Proof.
  destruct r as [|bs|[|]]; cbn; try reflexivity;
    match goal with |- context [dec ?x] => destruct (dec x) end; reflexivity.
Qed.

Lemma Decode_state {S A : Type} (dec : list byte -> dec_result A)
  (r : Quic.Reader) (s : S) :
  snd (Quic.Decode dec r s) = s.
Proof.
  destruct r as [|bs|[|]]; cbn; try reflexivity;
    match goal with |- context [dec ?x] => destruct (dec x) end; reflexivity.
Qed.




(** C2: when the packet [read] hands to [Send] carries the [Error] flag,
    [Send] returns no packet; the payload is decoded as one string and,
    when that succeeds, the error returned is [errors.New] of that string.
    The same holds for the packet handed to a caller of [SendQUIC]. *)
Theorem error_flag_short_circuits :
  forall (fuel window : nat) (c : Z) (data : list byte),
    (forall proto proto0 p proto1,
        Quic.rw_Write (send_header c data ++ data) proto = (Ret tt, proto0) ->
        Quic.read fuel proto0 = (Ret p, proto1) ->
        Quic.flag p = QuicFlagError ->
        (forall q proto2, Quic.Send fuel c data proto <> (Ret q, proto2)) /\
        (forall msg,
            fst (Quic.Decode decode_string (Quic.Payload p) proto1) = Ret msg ->
            Quic.Send fuel c data proto = (Fail (ErrNew msg), proto1))) /\
    (forall (ctl ctl1 : Controller.Controller (V := V)) o p,
        Controller.reader_runs window (Controller.SendQUIC_send c data ctl)
          = (o, ctl1) ->
        Controller.quicChannel ctl1 !! c = Some (Controller.Handed p) ->
        Controller.flag p = QuicFlagError ->
        (forall q ctl2,
            Controller.SendQUIC window c data ctl <> (Ret q, ctl2)) /\
        (forall msg rest,
            o <> Fatal ->
            decode_string (Controller.payload p) = DecOk msg rest ->
            fst (Controller.SendQUIC window c data ctl) = Fail (ErrNew msg))).
Proof.
  intros fuel window c data. split.
  - intros proto proto0 p proto1 Hw Hr Hf.
    assert (Hs : Quic.Send fuel c data proto =
                 (msg <- Quic.Decode decode_string (Quic.Payload p) ;;
                  fail (ErrNew msg)) proto1).
    { unfold Quic.Send. unfold bind at 1. rewrite Hw.
      unfold bind at 1. rewrite Hr, Hf. reflexivity. }
    rewrite Hs. unfold bind.
    pose proof (Decode_state (S := Quic.QuicProtocol) decode_string
                  (Quic.Payload p) proto1) as Hst.
    destruct (Quic.Decode decode_string (Quic.Payload p) proto1) as [o s].
    simpl in Hst. subst s. split.
    + intros q proto2. destruct o; cbn; discriminate.
    + intros msg Hm. simpl in Hm. subst o. reflexivity.
  - intros ctl ctl1 o p Hrun Hch Hf.
    split.
    + intros q ctl2. unfold Controller.SendQUIC. rewrite Hrun.
      assert (Hno : Controller.SendQUIC_select c ctl1 <> (Ret q, ctl2)).
      { unfold Controller.SendQUIC_select. rewrite Hch, Hf. cbn.
        destruct (decode_string (Controller.payload p)); discriminate. }
      destruct o; (exact Hno || discriminate).
    + intros msg rest Ho Hd. unfold Controller.SendQUIC. rewrite Hrun.
      assert (Hy : fst (Controller.SendQUIC_select c ctl1)
                   = Fail (ErrNew msg)).
      { unfold Controller.SendQUIC_select. rewrite Hch, Hf, Hd.
        reflexivity. }
      destruct o; (exact Hy || congruence).
Qed.

(** C10: [Close] is [close(proto.Log)] and nothing more.  On a session
    whose [Log] channel is open, a new session among them, it returns and
    leaves the channel closed, its queue, the cached info and the
    transport as they were.  It closes the channel whatever its state:
    after one [Close] a second one panics, and so does the [Close] that
    [readPacket] makes for a packet with the [Exit] flag that arrives
    after the caller has closed the session.  The other way round too: a
    packet with the [Exit] flag read on an open session is returned with
    the channel closed, and the [Close] of the caller then panics. *)
Theorem Close_twice_panics :
  (forall x : Quic.ReadWriter,
      Quic.Close (Quic.NewQuicProtocol x)
      = (Ret tt,
         {| Quic.Log := {| Quic.queue := []; Quic.capacity := 100;
                           Quic.closed := true |};
            Quic.info := None; Quic.rw := x |})) /\
  (forall proto,
      Quic.closed (Quic.Log proto) = false ->
      Quic.Close proto
      = (Ret tt,
         {| Quic.Log := {| Quic.queue := Quic.queue (Quic.Log proto);
                           Quic.capacity := Quic.capacity (Quic.Log proto);
                           Quic.closed := true |};
            Quic.info := Quic.info proto; Quic.rw := Quic.rw proto |}) /\
      Quic.Close (snd (Quic.Close proto))
      = (Panic "close of closed channel", snd (Quic.Close proto))) /\
  (forall proto o proto1,
      Quic.Close proto = (o, proto1) ->
      Quic.Close proto1 = (Panic "close of closed channel", proto1)) /\
  (forall fuel proto o proto1 k h0 h1 h2 payload more t,
      Quic.Close proto = (o, proto1) ->
      Quic.rd (Quic.rw proto1) =
        repeat (RData []) k ++
        RData (magic_byte :: h0 :: h1 :: h2 :: payload ++ more) :: t ->
      hdr_len h1 h2 = Z.of_nat (length payload) ->
      cmd_refused (hdr_cmd h0) = false ->
      hdr_cmd h0 <> QuicCmdLog ->
      Quic.blackbox_pushed proto1 && (hdr_cmd h0 =? QuicCmdBlackbox) = false ->
      hdr_flag h0 = QuicFlagExit ->
      QuicFlagExit <> QuicFlagStreaming ->
      fst (Quic.readPacket (S fuel) proto1) = Panic "close of closed channel") /\
  (forall fuel proto k h0 h1 h2 payload more t,
      Quic.closed (Quic.Log proto) = false ->
      Quic.rd (Quic.rw proto) =
        repeat (RData []) k ++
        RData (magic_byte :: h0 :: h1 :: h2 :: payload ++ more) :: t ->
      hdr_len h1 h2 = Z.of_nat (length payload) ->
      cmd_refused (hdr_cmd h0) = false ->
      hdr_cmd h0 <> QuicCmdLog ->
      Quic.blackbox_pushed proto && (hdr_cmd h0 =? QuicCmdBlackbox) = false ->
      hdr_flag h0 = QuicFlagExit ->
      QuicFlagExit <> QuicFlagStreaming ->
      fst (Quic.readPacket (S fuel) proto)
      = Ret {| Quic.cmd := hdr_cmd h0; Quic.flag := QuicFlagExit;
               Quic.len := hdr_len h1 h2;
               Quic.Payload := Quic.BufReader payload |} /\
      Quic.closed (Quic.Log (snd (Quic.readPacket (S fuel) proto))) = true /\
      fst (Quic.Close (snd (Quic.readPacket (S fuel) proto)))
      = Panic "close of closed channel").
Proof.
  assert (Hclosed : forall proto o proto1,
             Quic.Close proto = (o, proto1) ->
             Quic.closed (Quic.Log proto1) = true).
  { intros proto o proto1. unfold Quic.Close.
    destruct (Quic.closed (Quic.Log proto)) eqn:Hc; intros Heq;
      inversion Heq; subst; [exact Hc | reflexivity]. }
  assert (Hpanic : forall proto,
             Quic.closed (Quic.Log proto) = true ->
             Quic.Close proto = (Panic "close of closed channel", proto)).
  { intros proto Hc. unfold Quic.Close. rewrite Hc. reflexivity. }
  assert (Hopen : forall proto,
             Quic.closed (Quic.Log proto) = false ->
             Quic.Close proto
             = (Ret tt,
                {| Quic.Log :=
                     {| Quic.queue := Quic.queue (Quic.Log proto);
                        Quic.capacity := Quic.capacity (Quic.Log proto);
                        Quic.closed := true |};
                   Quic.info := Quic.info proto; Quic.rw := Quic.rw proto |})).
  { intros proto Hc. unfold Quic.Close, Quic.with_Log. rewrite Hc.
    reflexivity. }
  split; [| split; [| split; [| split]]].
  - intros x. reflexivity.
  - intros proto Hc. split; [apply Hopen; exact Hc |].
    apply Hpanic. rewrite (Hopen proto Hc). reflexivity.
  - intros proto o proto1 H1. apply Hpanic. eapply Hclosed. exact H1.
  - intros fuel proto o proto1 k h0 h1 h2 payload more t H1 Hrd Hlen Hcmd
           Hlog Hbb Hexit Hne.
    pose proof (readHeader_frame proto1 k h0 h1 h2 (payload ++ more) t Hrd)
      as Hh.
    rewrite (readPacket_reply (S fuel) _ _ _ payload (unread more t) Hh).
    + cbn [Quic.flag]. rewrite Hexit, Z.eqb_refl. unfold bind.
      rewrite Hpanic; [reflexivity |].
      apply (Hclosed _ _ _ H1).
    + exact Hcmd.
    + cbn [Quic.flag]. rewrite Hexit. apply Z.eqb_neq. exact Hne.
    + cbn [Quic.len Quic.with_rd Quic.rw Quic.rd]. rewrite Hlen, Nat2Z.id.
      apply payload_loop_chunk.
    + apply Z.eqb_neq. exact Hlog.
    + exact Hbb.
  - intros fuel proto k h0 h1 h2 payload more t Hc Hrd Hlen Hcmd Hlog Hbb
           Hexit Hne.
    pose proof (readHeader_frame proto k h0 h1 h2 (payload ++ more) t Hrd)
      as Hh.
    rewrite (readPacket_reply (S fuel) _ _ _ payload (unread more t) Hh).
    + cbn [Quic.flag]. rewrite Hexit, Z.eqb_refl. unfold bind.
      rewrite Hopen by exact Hc.
      cbn [ret fst snd Quic.with_Payload Quic.cmd Quic.flag Quic.len
           Quic.Log Quic.closed].
      split; [reflexivity |]. split; [reflexivity |].
      rewrite Hpanic; reflexivity.
    + exact Hcmd.
    + cbn [Quic.flag]. rewrite Hexit. apply Z.eqb_neq. exact Hne.
    + cbn [Quic.len Quic.with_rd Quic.rw Quic.rd]. rewrite Hlen, Nat2Z.id.
      apply payload_loop_chunk.
    + cbn [Quic.cmd]. apply Z.eqb_neq. exact Hlog.
    + exact Hbb.
Qed.

(** ** The controller *)

(** The reader changes a channel only by handing a packet to a caller
    parked on it. *)
Lemma dispatch_not_parked (c_ : Z) (packet : Controller.quicPacket)
  (ctl : Controller.Controller (V := V)) :
  (forall d, Controller.quicChannel ctl !! c_ <> Some (Controller.Parked d)) ->
  Controller.quicChannel (snd (Controller.dispatch packet ctl)) !! c_
  = Controller.quicChannel ctl !! c_.
Proof.
  intros Hnp. unfold Controller.dispatch.
  destruct (Controller.quicChannel ctl !! Controller.cmd packet)
    as [[|d|q]|] eqn:Hl; try reflexivity.
  cbn. destruct (decide (Controller.cmd packet = c_)) as [Heq|Hneq].
  - subst c_. exfalso. exact (Hnp d Hl).
  - apply lookup_insert_ne. exact Hneq.
Qed.

Lemma ReadQUIC_not_parked (c_ : Z) (ctl : Controller.Controller (V := V)) :
  (forall d, Controller.quicChannel ctl !! c_ <> Some (Controller.Parked d)) ->
  Controller.quicChannel (snd (Controller.ReadQUIC ctl)) !! c_
  = Controller.quicChannel ctl !! c_.
Proof.
  intros Hnp. unfold Controller.ReadQUIC, bind, Controller.readAtLeast.
  destruct (ReadAtLeast (Controller.input ctl) (Z.to_nat (quicHeaderLen - 1)))
    as [[header| | | | |] t1]; try reflexivity.
  destruct (header !! 0%nat) as [h0|]; [| reflexivity].
  destruct (header !! 1%nat) as [h1|]; [| reflexivity].
  destruct (header !! 2%nat) as [h2|]; [| reflexivity].
  cbn [Controller.input Controller.with_input].
  destruct (ReadAtLeast t1 (Z.to_nat (hdr_len h1 h2)))
    as [[pl| | | | |] t2]; try reflexivity.
  destruct (negb (length pl =? Z.to_nat (hdr_len h1 h2))%nat);
    [reflexivity |].
  destruct (hdr_cmd h0 =? QuicCmdLog).
  { destruct (decode_string pl); [| reflexivity].
    unfold Controller.QuicLog_send. cbn.
    match goal with |- context [if ?b then _ else _] => destruct b end;
      reflexivity. }
  destruct (hdr_cmd h0 =? QuicCmdBlackbox).
  { destruct (decode_value pl); [| reflexivity].
    unfold Controller.QuicBlackbox_send. cbn.
    match goal with |- context [if ?b then _ else _] => destruct b end;
      reflexivity. }
  apply (dispatch_not_parked c_ _ (Controller.with_input ctl t2)). exact Hnp.
Qed.

Lemma reader_runs_not_parked (c_ : Z) (n : nat) :
  forall ctl : Controller.Controller (V := V),
    (forall d, Controller.quicChannel ctl !! c_ <> Some (Controller.Parked d)) ->
    Controller.quicChannel (snd (Controller.reader_runs n ctl)) !! c_
    = Controller.quicChannel ctl !! c_.
Proof.
  induction n as [|n IH]; intros ctl Hnp; [reflexivity |].
  cbn [Controller.reader_runs]. unfold bind.
  pose proof (ReadQUIC_not_parked c_ ctl Hnp) as Hstep.
  destruct (Controller.ReadQUIC ctl) as [o ctl'].
  cbn [snd] in Hstep.
  destruct o; cbn [snd]; try exact Hstep.
  rewrite IH; [exact Hstep |].
  intros d. rewrite Hstep. apply Hnp.
Qed.

(** ** The header written by the senders *)

Lemma byte_to_of_Z (z : Z) : byte_to_Z (byte_of_Z z) = z mod 256.
Proof.
  unfold byte_to_Z, byte_of_Z.
  assert (Hr : 0 <= z mod 256 < 256) by (apply Z.mod_pos_bound; lia).
  pose proof (Byte.to_of_N_option_map (Z.to_N (z mod 256))) as Ho.
  replace (Z.to_N (z mod 256) <=? 255)%N with true in Ho
    by (symmetry; apply N.leb_le; lia).
  destruct (Byte.of_N (Z.to_N (z mod 256))) as [b|]; [| discriminate].
  cbn in Ho. inversion Ho as [Hb]. rewrite Hb. apply Z2N.id. lia.
Qed.

Lemma byte_to_Z_range (b : byte) : 0 <= byte_to_Z b < 256.
Proof.
  unfold byte_to_Z. pose proof (Byte.to_N_bounded b). lia.
Qed.

(** Two bytes joined by [uint16(h1)<<8 | uint16(h2)]. *)
Lemma lor_shiftl_8 (a b : Z) :
  0 <= b < 256 -> Z.lor (Z.shiftl a 8) b = a * 256 + b.
Proof.
  intros Hb.
  assert (Hand : Z.land (Z.shiftl a 8) b = 0).
  { apply Z.bits_inj'. intros i Hi. rewrite Z.land_spec, Z.bits_0.
    destruct (Z.ltb_spec i 8) as [Hlt|Hge].
    - rewrite Z.shiftl_spec_low by lia. reflexivity.
    - replace b with (b mod 2 ^ 8) by (apply Z.mod_small; lia).
      rewrite Z.mod_pow2_bits_high by lia. apply andb_false_r. }
  rewrite <- Z.lxor_lor by exact Hand.
  rewrite <- Z.add_nocarry_lxor by exact Hand.
  rewrite Z.shiftl_mul_pow2 by lia. reflexivity.
Qed.

Lemma hdr_len_value (h1 h2 : byte) :
  hdr_len h1 h2 = byte_to_Z h1 * 256 + byte_to_Z h2.
Proof. unfold hdr_len. apply lor_shiftl_8. apply byte_to_Z_range. Qed.

(** The length field of a frame that is sent holds the low sixteen bits
    of the number of payload bytes. *)
Lemma send_header_len (n : Z) :
  0 <= n ->
  hdr_len (byte_of_Z (Z.land (Z.shiftr n 8) 255)) (byte_of_Z (Z.land n 255))
  = n mod 65536.
Proof.
  intros Hn. rewrite hdr_len_value, !byte_to_of_Z.
  change 255 with (Z.ones 8). rewrite !Z.land_ones by lia.
  rewrite Z.shiftr_div_pow2 by lia. change (2 ^ 8) with 256.
  rewrite !Z.mod_mod by lia.
  change 65536 with (256 * 256). rewrite Z.rem_mul_r by lia. lia.
Qed.

(** C8 (as amended): the senders put the low sixteen bits of the payload
    byte count in the length field, which is the byte count when that is
    at most 65535; [Send] writes the header and the payload whatever the
    count, and fails only when the transport refuses the write;
    [SendQUIC] queues header and payload for the writer. *)
Theorem send_length_field_wraps :
  forall (c : Z) (data : list byte),
    exists h1 h2 : byte,
      send_header c data = [magic_byte; byte_of_Z c; h1; h2] /\
      hdr_len h1 h2 = Z.of_nat (length data) mod 65536 /\
      (Z.of_nat (length data) <= 65535 ->
       hdr_len h1 h2 = Z.of_nat (length data)) /\
      (forall proto,
          Quic.wr_fail (Quic.rw proto) = None ->
          exists proto',
            Quic.rw_Write (send_header c data ++ data) proto
              = (Ret tt, proto') /\
            Quic.wr (Quic.rw proto')
              = Quic.wr (Quic.rw proto) ++ send_header c data ++ data) /\
      (forall ctl : Controller.Controller (V := V),
          Controller.writeChannel (Controller.SendQUIC_send c data ctl)
          = Controller.writeChannel ctl ++ [send_header c data ++ data]).
Proof.
  intros c data.
  exists (byte_of_Z (Z.land (Z.shiftr (Z.of_nat (length data)) 8) 255)),
         (byte_of_Z (Z.land (Z.of_nat (length data)) 255)).
  split; [reflexivity |].
  assert (Hl : hdr_len
                 (byte_of_Z (Z.land (Z.shiftr (Z.of_nat (length data)) 8) 255))
                 (byte_of_Z (Z.land (Z.of_nat (length data)) 255))
               = Z.of_nat (length data) mod 65536)
    by (apply send_header_len; lia).
  split; [exact Hl |]. split; [| split].
  - intros Hle. rewrite Hl. apply Z.mod_small. lia.
  - intros proto Hw. unfold Quic.rw_Write. rewrite Hw.
    eexists. split; reflexivity.
  - intros ctl. reflexivity.
Qed.

(** ** Further properties of package [quic] *)

(** The length field is a sixteen-bit value. *)
Lemma hdr_len_range (h1 h2 : byte) : 0 <= hdr_len h1 h2 <= 65535.
Proof.
  pose proof (byte_to_Z_range h1). pose proof (byte_to_Z_range h2).
  rewrite hdr_len_value. lia.
Qed.

(** X1: in the byte after the magic the command is the low five bits and
    the flag the high three, so a command is below 32 and a flag below 8
    whatever the byte, and the two fields determine the byte; the length
    is the big-endian value of the next two bytes, at most 65535. *)
Theorem header_fields_partition :
  forall h0 h1 h2 : byte,
    0 <= hdr_cmd h0 < 32 /\
    0 <= hdr_flag h0 < 8 /\
    byte_to_Z h0 = hdr_flag h0 * 32 + hdr_cmd h0 /\
    hdr_len h1 h2 = byte_to_Z h1 * 256 + byte_to_Z h2 /\
    0 <= hdr_len h1 h2 <= 65535.
Proof.
  intros h0 h1 h2.
  pose proof (byte_to_Z_range h0) as R0.
  pose proof (byte_to_Z_range h1) as R1.
  pose proof (byte_to_Z_range h2) as R2.
  unfold hdr_cmd, hdr_flag.
  change (Z.shiftr 255 3) with (Z.ones 5).
  rewrite Z.land_ones, Z.shiftr_div_pow2 by lia.
  change (2 ^ 5) with 32.
  pose proof (Z.div_mod (byte_to_Z h0) 32 ltac:(lia)) as Hdm.
  pose proof (Z.mod_pos_bound (byte_to_Z h0) 32 ltac:(lia)) as Hm.
  rewrite hdr_len_value.
  repeat split; lia.
Qed.

(** The header bytes of a frame written by [Send], read back. *)
Lemma sent_header_fields (c : Z) (data : list byte) :
  Z.of_nat (length data) <= 65535 ->
  exists h0 h1 h2 : byte,
    send_header c data = [magic_byte; h0; h1; h2] /\
    hdr_cmd h0 = (c mod 256) mod 32 /\
    hdr_flag h0 = (c mod 256) / 32 /\
    hdr_len h1 h2 = Z.of_nat (length data).
Proof.
  intros Hle.
  exists (byte_of_Z c),
         (byte_of_Z (Z.land (Z.shiftr (Z.of_nat (length data)) 8) 255)),
         (byte_of_Z (Z.land (Z.of_nat (length data)) 255)).
  split; [reflexivity |].
  unfold hdr_cmd, hdr_flag. rewrite byte_to_of_Z.
  change (Z.shiftr 255 3) with (Z.ones 5).
  rewrite Z.land_ones, Z.shiftr_div_pow2 by lia.
  change (2 ^ 5) with 32.
  repeat split.
  rewrite send_header_len by lia. apply Z.mod_small. lia.
Qed.

(** X2: what [Send] writes for a command that [readPacket] neither
    refuses nor takes for itself is read back by [readPacket] as a packet
    with that command, the flag [QuicFlagNone], the number of payload
    bytes as length and the payload itself, provided the payload has at
    most 65535 bytes; the bytes that follow the frame stay unread. *)
Theorem sent_frame_read_back :
  forall (fuel k : nat) (c : Z) (data more : list byte)
         (t : list read_event) (proto : Quic.QuicProtocol),
    0 <= c < 32 ->
    Z.of_nat (length data) <= 65535 ->
    Quic.rd (Quic.rw proto) =
      repeat (RData []) k ++ RData (send_header c data ++ data ++ more) :: t ->
    cmd_refused c = false ->
    c <> QuicCmdLog ->
    Quic.blackbox_pushed proto && (c =? QuicCmdBlackbox) = false ->
    QuicFlagStreaming <> QuicFlagNone ->
    QuicFlagExit <> QuicFlagNone ->
    Quic.readPacket (S fuel) proto =
    (Ret {| Quic.cmd := c; Quic.flag := QuicFlagNone;
            Quic.len := Z.of_nat (length data);
            Quic.Payload := Quic.BufReader data |},
     Quic.with_rd proto (unread more t)).
Proof.
  intros fuel k c data more t proto Hc Hlen Hrd Hok Hlog Hbb Hs He.
  destruct (sent_header_fields c data Hlen)
    as (h0 & h1 & h2 & Hh & Hcmd & Hflag & Hl).
  rewrite Hh in Hrd. cbn [app] in Hrd.
  pose proof (readHeader_frame proto k h0 h1 h2 (data ++ more) t Hrd) as Hread.
  assert (Hc' : hdr_cmd h0 = c).
  { rewrite Hcmd. rewrite (Z.mod_small c 256) by lia. apply Z.mod_small. lia. }
  assert (Hf' : hdr_flag h0 = QuicFlagNone).
  { rewrite Hflag. rewrite (Z.mod_small c 256) by lia.
    apply Z.div_small. lia. }
  rewrite Hc', Hf', Hl in Hread.
  rewrite (readPacket_reply (S fuel) _ _ _ data (unread more t) Hread).
  - cbn [Quic.flag].
    replace (QuicFlagNone =? QuicFlagExit) with false
      by (symmetry; apply Z.eqb_neq; congruence).
    reflexivity.
  - exact Hok.
  - cbn [Quic.flag]. apply Z.eqb_neq. congruence.
  - cbn [Quic.len Quic.with_rd Quic.rw Quic.rd]. rewrite Nat2Z.id.
    apply payload_loop_chunk.
  - apply Z.eqb_neq. exact Hlog.
  - exact Hbb.
Qed.

(** X3: on a transport that has ended, whatever number of reads of zero
    bytes came first, [read] returns [io.EOF] and [Send] hands it to its
    caller. *)
Theorem read_at_end_of_stream :
  forall (fuel k : nat) (proto : Quic.QuicProtocol),
    Quic.rd (Quic.rw proto) = repeat (RData []) k ->
    Quic.read (S fuel) proto = (Fail EOF, Quic.with_rd proto []) /\
    (forall c data proto0,
        Quic.rw_Write (send_header c data ++ data) proto0 = (Ret tt, proto) ->
        Quic.Send (S fuel) c data proto0 = (Fail EOF, Quic.with_rd proto [])).
Proof.
  intros fuel k proto Hrd.
  assert (Hh : Quic.readHeader proto = (Fail EOF, Quic.with_rd proto [])).
  { unfold Quic.readHeader, Quic.on_rd. rewrite Hrd.
    unfold Quic.readHeader_rd.
    rewrite <- (app_nil_r (repeat (RData []) k)), read_magic_empties.
    reflexivity. }
  assert (Hr : Quic.read (S fuel) proto = (Fail EOF, Quic.with_rd proto [])).
  { unfold Quic.read. cbn [Quic.read_loop].
    unfold Quic.readPacket, bind. rewrite Hh. reflexivity. }
  split; [exact Hr |].
  intros c data proto0 Hw. unfold Quic.Send, bind. rewrite Hw, Hr.
  reflexivity.
Qed.

(** What [io.CopyN] takes from a script without errors: the bytes copied
    and the bytes left are the bytes of the script, and a copy cut short
    by [io.EOF] has used up at least one event. *)
Lemma read_full_bytes (t : list read_event) :
  forall m got e t',
    error_free t = true ->
    read_full t m = (got, e, t') ->
    bytes_of t = got ++ bytes_of t' /\
    error_free t' = true /\
    (e <> None -> t = [] \/ (length t' < length t)%nat).
Proof.
  induction t as [|ev t IH]; intros m got e t' Hef Hr.
  - destruct m; simpl in Hr; inversion Hr; subst; repeat split; auto.
  - destruct m as [|m].
    + rewrite read_full_0 in Hr. inversion Hr; subst.
      repeat split; [exact Hef | congruence].
    + destruct ev as [bs | | msg]; cbn [read_full] in Hr;
        cbn [error_free] in Hef; [| | discriminate].
      * destruct (length bs <=? S m)%nat eqn:Hle.
        -- destruct (read_full t (S m - length bs)) as [[g e0] t0] eqn:Hrec.
           inversion Hr; subst.
           destruct (IH _ _ _ _ Hef Hrec) as (Hb & He & Hlt).
           cbn [bytes_of]. rewrite Hb, app_assoc.
           repeat split; [exact He |].
           intros Hne. right. cbn [length].
           destruct (Hlt Hne) as [-> | Hl].
           ++ destruct (S m - length bs)%nat; simpl in Hrec;
                inversion Hrec; subst; simpl; lia.
           ++ lia.
        -- inversion Hr; subst. cbn [bytes_of error_free].
           rewrite app_assoc, take_drop.
           repeat split; [exact Hef | congruence].
      * inversion Hr; subst. cbn [bytes_of length].
        repeat split; [exact Hef |]. intros _. right. lia.
Qed.

Lemma payload_loop_done (fuel n : nat) (b : list byte) (t : list read_event) :
  length b = n -> Quic.payload_loop fuel n b t = (Ret b, t).
Proof.
  intros Hb. destruct fuel; cbn [Quic.payload_loop];
    rewrite (proj2 (Nat.eqb_eq _ _) Hb); reflexivity.
Qed.

Lemma payload_loop_gathers (n fuel : nat) :
  forall (b : list byte) (t : list read_event),
    error_free t = true ->
    (length b <= n)%nat ->
    (n <= length b + length (bytes_of t))%nat ->
    (length t < fuel)%nat ->
    fst (Quic.payload_loop fuel n b t)
      = Ret (b ++ take (n - length b) (bytes_of t)) /\
    bytes_of (snd (Quic.payload_loop fuel n b t))
      = drop (n - length b) (bytes_of t).
Proof.
  induction fuel as [|fuel IH]; intros b t Hef Hb Hn Hf; [lia |].
  destruct (Nat.eq_dec (length b) n) as [Heq|Hneq].
  - rewrite payload_loop_done by exact Heq.
    replace (n - length b)%nat with 0%nat by lia.
    cbn [fst snd]. rewrite take_0, drop_0, app_nil_r. split; reflexivity.
  - cbn [Quic.payload_loop].
    replace (length b =? n)%nat with false
      by (symmetry; apply Nat.eqb_neq; exact Hneq).
    unfold CopyN.
    destruct (read_full t (n - length b)) as [[got e] t1] eqn:Hr.
    destruct (read_full_count _ _ _ _ _ Hr) as [Hlen Hiff].
    destruct (read_full_bytes _ _ _ _ _ Hef Hr) as (Hbytes & Hef1 & Hlt).
    assert (Htake : forall r, (length got <= n - length b)%nat ->
               (b ++ got) ++ take (n - length (b ++ got)) r
               = b ++ take (n - length b) (got ++ r)).
    { intros r Hg. rewrite <- app_assoc. f_equal.
      rewrite take_app_ge by lia. f_equal. f_equal.
      rewrite length_app. lia. }
    assert (Hdrop : forall r, (length got <= n - length b)%nat ->
               drop (n - length (b ++ got)) r
               = drop (n - length b) (got ++ r)).
    { intros r Hg. rewrite drop_app_ge by lia. f_equal.
      rewrite length_app. lia. }
    destruct e as [e|].
    + destruct (read_full_error _ _ _ _ _ Hr) as [-> | [msg ->]].
      * cbn [is_EOF].
        assert (Hl1 : (length t1 < length t)%nat).
        { destruct (Hlt ltac:(discriminate)) as [-> | Hl]; [| exact Hl].
          simpl in Hn. lia. }
        destruct (IH (b ++ got) t1 Hef1) as [H1 H2].
        -- rewrite length_app. lia.
        -- rewrite length_app.
           rewrite Hbytes, length_app in Hn. lia.
        -- lia.
        -- rewrite H1, H2, Hbytes. split; [f_equal; apply Htake |
                                           apply Hdrop]; exact Hlen.
      * exfalso. clear - Hef Hr.
        revert Hef Hr. generalize (n - length b)%nat as m. revert got t1.
        induction t as [|ev t IHt]; intros got t1 m Hef Hr.
        -- destruct m; simpl in Hr; inversion Hr.
        -- destruct m as [|m]; [rewrite read_full_0 in Hr; inversion Hr |].
           destruct ev as [bs| |m']; cbn [read_full] in Hr;
             cbn [error_free] in Hef; try discriminate.
           destruct (length bs <=? S m)%nat; [| inversion Hr].
           destruct (read_full t (S m - length bs)) as [[g e0] t0] eqn:Hrec.
           inversion Hr; subst. eapply IHt; eassumption.
    + assert (Hg : length got = (n - length b)%nat)
        by (apply Hiff; reflexivity).
      replace (length got =? 0)%nat with false
        by (symmetry; apply Nat.eqb_neq; lia).
      rewrite payload_loop_done by (rewrite length_app; lia).
      cbn [fst snd]. rewrite Hbytes.
      rewrite take_app_length' by (symmetry; exact Hg).
      rewrite drop_app_length' by (symmetry; exact Hg). split; reflexivity.
Qed.

(** X4: the payload loop of [readPacket] puts the payload together from
    whatever pieces the transport delivers: when the script holds at
    least [n] bytes and reports no error but [io.EOF] between them, the
    loop returns the first [n] bytes of the script and leaves the bytes
    after them unread, one turn per event of the script being enough. *)
Theorem payload_loop_collects :
  forall (n : nat) (t : list read_event),
    error_free t = true ->
    (n <= length (bytes_of t))%nat ->
    fst (Quic.payload_loop (S (length t)) n [] t) = Ret (take n (bytes_of t)) /\
    bytes_of (snd (Quic.payload_loop (S (length t)) n [] t))
      = drop n (bytes_of t).
Proof.
  intros n t Hef Hn.
  destruct (payload_loop_gathers n (S (length t)) [] t Hef) as [H1 H2];
    cbn [length]; try lia.
  rewrite Nat.sub_0_r in H1, H2. split; [exact H1 | exact H2].
Qed.

(** What [readHeader] returns comes from three bytes of the transport. *)
Lemma readHeader_Ret (proto proto1 : Quic.QuicProtocol) (p : Quic.QuicPacket) :
  Quic.readHeader proto = (Ret p, proto1) ->
  exists h0 h1 h2 : byte,
    p = {| Quic.cmd := hdr_cmd h0; Quic.flag := hdr_flag h0;
           Quic.len := hdr_len h1 h2; Quic.Payload := Quic.NilReader |}.
Proof.
  unfold Quic.readHeader, Quic.on_rd, Quic.readHeader_rd.
  destruct (Quic.read_magic (Quic.rd (Quic.rw proto))) as [[[]| | | | |] t1];
    try discriminate.
  destruct (ReadAtLeast t1 (Z.to_nat (quicHeaderLen - 1)))
    as [[header| | | | |] t2]; try discriminate.
  destruct (header !! 0%nat) as [h0|]; [| discriminate].
  destruct (header !! 1%nat) as [h1|]; [| discriminate].
  destruct (header !! 2%nat) as [h2|]; [| discriminate].
  intros Heq. inversion Heq. eauto.
Qed.

Lemma payload_loop_Ret (fuel n : nat) :
  forall (b b' : list byte) (t t' : list read_event),
    Quic.payload_loop fuel n b t = (Ret b', t') -> length b' = n.
Proof.
  induction fuel as [|fuel IH]; intros b b' t t'; cbn [Quic.payload_loop];
    destruct (length b =? n)%nat eqn:Hn.
  - intros Heq. inversion Heq; subst. apply Nat.eqb_eq. exact Hn.
  - discriminate.
  - intros Heq. inversion Heq; subst. apply Nat.eqb_eq. exact Hn.
  - destruct (CopyN t (n - length b)) as [[got e] t1].
    destruct e as [e|].
    + destruct (is_EOF e); [apply IH | discriminate].
    + destruct (length got =? 0)%nat; [discriminate | apply IH].
Qed.

(** The sub-frame loop ends normally only by flushing an empty buffer. *)
Lemma stream_loop_Ret (fuel : nat) :
  forall (bw : list byte) (t t' : list read_event),
    Quic.stream_loop fuel bw t = (Ret tt, t') -> bw = [].
Proof.
  induction fuel as [|fuel IH]; intros bw t t'; cbn [Quic.stream_loop];
    [discriminate |].
  destruct (Quic.readHeader_rd t) as [[h| | | | |] t1]; try discriminate.
  destruct (Quic.len h =? 0).
  - destruct bw; [reflexivity | discriminate].
  - destruct (Quic.bw_CopyN t1 (Z.to_nat (Quic.len h)) bw)
      as [[bw'| | | | |] t2] eqn:Hc; try discriminate.
    intros Hl. pose proof (IH _ _ _ Hl) as ->.
    clear - Hc.
    assert (Hgrow : forall t n bw nr bw' t',
               Quic.bw_ReadFrom t n bw nr = (Ret bw', t') ->
               (length bw + n = length bw')%nat).
    { clear. induction t as [|ev t IHt]; intros n bw nr bw' t'.
      - cbn [Quic.bw_ReadFrom].
        destruct (Quic.bufio_size <=? length bw)%nat; [discriminate |].
        destruct n; [| discriminate].
        intros Heq; inversion Heq; subst. lia.
      - cbn [Quic.bw_ReadFrom].
        destruct (Quic.bufio_size <=? length bw)%nat eqn:Hfull;
          [discriminate |].
        destruct n as [|n]; [intros Heq; inversion Heq; subst; lia |].
        destruct ev as [[|b bs]| |m]; try discriminate.
        + destruct (S nr =? Quic.maxConsecutiveEmptyReads)%nat;
            [discriminate | apply IHt].
        + set (k := Nat.min (length (b :: bs))
                      (Nat.min (S n) (Quic.bufio_size - length bw))).
          destruct (length (b :: bs) <=? k)%nat eqn:Hk.
          * intros Hrec. apply IHt in Hrec. rewrite length_app in Hrec.
            apply Nat.leb_le in Hk. subst k. lia.
          * destruct (Quic.bufio_size <=? length (bw ++ take k (b :: bs)))%nat
              eqn:Hf2; [discriminate |].
            intros Heq. inversion Heq; subst bw' t'.
            apply Nat.leb_gt in Hk, Hf2, Hfull.
            rewrite length_app, length_take in *. subst k. lia. }
    apply Hgrow in Hc. cbn [length] in Hc.
    destruct bw; [reflexivity | cbn [length] in Hc; lia].
Qed.

(** X5: a packet that [readPacket] returns has a command that is neither
    refused nor [QuicCmdLog]; when its flag is not [QuicFlagStreaming] its
    payload is a buffer of exactly [len] bytes; when its flag is
    [QuicFlagStreaming] its payload is the pipe, closed, through which no
    byte has passed, so the caller reads an empty payload; and when its
    flag is [QuicFlagExit] the [Log] channel has been closed. *)
Theorem returned_packet_shape :
  forall (fuel : nat) (proto proto' : Quic.QuicProtocol) (p : Quic.QuicPacket),
    Quic.readPacket fuel proto = (Ret p, proto') ->
    cmd_refused (Quic.cmd p) = false /\
    Quic.cmd p <> QuicCmdLog /\
    (Quic.flag p <> QuicFlagStreaming ->
     exists b, Quic.Payload p = Quic.BufReader b /\
               Z.of_nat (length b) = Quic.len p) /\
    (Quic.flag p = QuicFlagStreaming ->
     Quic.Payload p = Quic.PipeReader true) /\
    (Quic.flag p = QuicFlagExit ->
     Quic.closed (Quic.Log proto') = true).
Proof.
  intros fuel proto proto' p. unfold Quic.readPacket. unfold bind at 1.
  destruct (Quic.readHeader proto) as [[h| | | | |] proto1] eqn:Hh;
    try discriminate.
  destruct (readHeader_Ret _ _ _ Hh) as (h0 & h1 & h2 & Hp).
  pose proof (hdr_len_range h1 h2) as Hlen.
  fold (cmd_refused (Quic.cmd h)).
  destruct (cmd_refused (Quic.cmd h)) eqn:Hc; [discriminate |].
  unfold bind at 1.
  assert (Hend : forall (st : bool) (payload : Quic.Reader)
                        (s s' : Quic.QuicProtocol) (bw : list byte),
             (if Quic.cmd h =? QuicCmdLog
              then (val <- Quic.Decode decode_string payload ;;
                    Quic.Log_offer val ;;;
                    fail errUpdatePacket) s
              else if Quic.blackbox_pushed s && (Quic.cmd h =? QuicCmdBlackbox)
              then match Quic.Decode decode_value payload s with
                   | (Ret _, proto') => (Fail errUpdatePacket, proto')
                   | (Fail _, proto') => (Fail errUpdatePacket, proto')
                   | (o, proto') => (abort o, proto')
                   end
              else ((if st
                     then Quic.on_rd (Quic.stream_loop fuel bw)
                     else ret tt) ;;;
                    (if Quic.flag h =? QuicFlagExit then Quic.Close
                     else ret tt) ;;;
                    ret (Quic.with_Payload h
                           (if st
                            then Quic.PipeReader true
                            else payload))) s) = (Ret p, s') ->
             Quic.cmd h <> QuicCmdLog /\
             p = Quic.with_Payload h
                   (if st
                    then Quic.PipeReader true else payload) /\
             (Quic.flag h = QuicFlagExit ->
              Quic.closed (Quic.Log s') = true)).
  { intros st payload s s' bw.
    destruct (Quic.cmd h =? QuicCmdLog) eqn:Hl.
    - unfold bind.
      destruct (Quic.Decode decode_string payload s) as [[val| | | | |] s1];
        try discriminate.
      destruct (Quic.Log_offer val s1) as [[[]| | | | |] s2]; discriminate.
    - apply Z.eqb_neq in Hl.
      destruct (Quic.blackbox_pushed s && (Quic.cmd h =? QuicCmdBlackbox)).
      + destruct (Quic.Decode decode_value payload s) as [[v| | | | |] s1];
          discriminate.
      + unfold bind.
        destruct ((if st
                   then Quic.on_rd (Quic.stream_loop fuel bw)
                   else ret tt) s) as [[[]| | | | |] s1]; try discriminate.
        destruct (Quic.flag h =? QuicFlagExit) eqn:He.
        * unfold Quic.Close.
          destruct (Quic.closed (Quic.Log s1)); [discriminate |].
          cbn. intros Heq. inversion Heq; subst. auto.
        * cbn. intros Heq. inversion Heq; subst.
          repeat split; auto. intros Hx. apply Z.eqb_neq in He. contradiction. }
  destruct (Quic.flag h =? QuicFlagStreaming) eqn:Hs.
  - unfold bind at 1, Quic.on_rd.
    destruct (Quic.bw_CopyN (Quic.rd (Quic.rw proto1))
                (Z.to_nat (Quic.len h)) []) as [[bw| | | | |] t];
      try discriminate.
    cbn [ret fst snd]. intros Hrun.
    destruct (Hend true (Quic.PipeReader false) _ _ bw Hrun) as (Hl & -> & Hx).
    cbn [Quic.with_Payload Quic.cmd Quic.flag Quic.Payload].
    repeat split; auto.
    apply Z.eqb_eq in Hs. intros Hn. contradiction.
  - unfold bind at 1, Quic.on_rd.
    destruct (Quic.payload_loop fuel (Z.to_nat (Quic.len h)) []
                (Quic.rd (Quic.rw proto1))) as [[b| | | | |] t] eqn:Hpl;
      try discriminate.
    cbn [ret fst snd]. intros Hrun.
    destruct (Hend false (Quic.BufReader b) _ _ [] Hrun) as (Hl & -> & Hx).
    cbn [Quic.with_Payload Quic.cmd Quic.flag Quic.Payload Quic.len].
    apply payload_loop_Ret in Hpl.
    repeat split; auto.
    + intros _. exists b. split; [reflexivity |].
      rewrite Hpl, Z2Nat.id; [reflexivity |].
      rewrite Hp. cbn [Quic.len]. lia.
    + apply Z.eqb_neq in Hs. intros Hn. contradiction.
Qed.

(** ** What the reader leaves alone *)

Lemma reads_only_ret {A : Type} (a : A) : reads_only (ret a).
Proof. intros proto. repeat split. Qed.

Lemma reads_only_fail {A : Type} (e : error) : reads_only (fail (A := A) e).
Proof. intros proto. repeat split. Qed.

Lemma reads_only_bind {A B : Type} (m : M Quic.QuicProtocol A)
  (k : A -> M Quic.QuicProtocol B) :
  reads_only m -> (forall a, reads_only (k a)) -> reads_only (bind m k).
Proof.
  intros Hm Hk proto. unfold bind.
  destruct (Hm proto) as (H1 & H2 & H3).
  destruct (m proto) as [o s]. cbn [snd] in *.
  destruct o as [a| | | | |]; cbn [snd]; try (repeat split; assumption).
  destruct (Hk a s) as (K1 & K2 & K3).
  rewrite K1, K2, K3. repeat split; assumption.
Qed.

Lemma reads_only_on_rd {A : Type}
  (f : list read_event -> outcome A * list read_event) :
  reads_only (Quic.on_rd f).
Proof.
  intros proto. unfold Quic.on_rd.
  destruct (f (Quic.rd (Quic.rw proto))). repeat split.
Qed.

Lemma reads_only_Close : reads_only Quic.Close.
Proof.
  intros proto. unfold Quic.Close.
  destruct (Quic.closed (Quic.Log proto)); repeat split.
Qed.

Lemma reads_only_Log_offer (val : string) : reads_only (Quic.Log_offer val).
Proof.
  intros proto. unfold Quic.Log_offer.
  destruct (Quic.closed (Quic.Log proto)); [repeat split |].
  destruct (length (Quic.queue (Quic.Log proto))
            <? Quic.capacity (Quic.Log proto))%nat; repeat split.
Qed.

Lemma reads_only_Decode {A : Type} (dec : list byte -> dec_result A)
  (r : Quic.Reader) : reads_only (Quic.Decode dec r).
Proof.
  intros proto. rewrite Decode_state. repeat split.
Qed.

Lemma reads_only_Decode1 {A : Type} (dec : list byte -> dec_result A)
  (r : Quic.Reader) : reads_only (Quic.Decode1 dec r).
Proof.
  intros proto. rewrite Decode1_state. repeat split.
Qed.

Lemma reads_only_readPacket (fuel : nat) : reads_only (Quic.readPacket fuel).
Proof.
  unfold Quic.readPacket.
  apply reads_only_bind; [apply reads_only_on_rd |]. intros p.
  destruct ((QuicCmdMax <=? Quic.cmd p) || (Quic.cmd p =? QuicCmdInvalid));
    [apply reads_only_fail |].
  apply reads_only_bind.
  { destruct (Quic.flag p =? QuicFlagStreaming);
      (apply reads_only_bind; [apply reads_only_on_rd |]);
      intros x; apply reads_only_ret. }
  intros pb proto.
  destruct (Quic.cmd p =? QuicCmdLog).
  { apply (reads_only_bind _ _ (reads_only_Decode decode_string pb.1)).
    intros val. apply reads_only_bind; [apply reads_only_Log_offer |].
    intros _. apply reads_only_fail. }
  destruct (Quic.blackbox_pushed proto && (Quic.cmd p =? QuicCmdBlackbox)).
  { pose proof (Decode_state (S := Quic.QuicProtocol) decode_value
                  pb.1 proto) as Hst.
    destruct (Quic.Decode decode_value pb.1 proto) as [o s].
    cbn [snd] in Hst. subst s. destruct o; repeat split. }
  apply (reads_only_bind
           (if Quic.flag p =? QuicFlagStreaming
            then Quic.on_rd (Quic.stream_loop fuel pb.2) else ret tt)).
  { destruct (Quic.flag p =? QuicFlagStreaming);
      [apply reads_only_on_rd | apply reads_only_ret]. }
  intros _. apply reads_only_bind.
  { destruct (Quic.flag p =? QuicFlagExit);
      [apply reads_only_Close | apply reads_only_ret]. }
  intros _. apply reads_only_ret.
Qed.

Lemma reads_only_read_loop (n fuel : nat) :
  reads_only (Quic.read_loop n fuel).
Proof.
  induction n as [|n IH]; intros proto; cbn [Quic.read_loop];
    [repeat split |].
  destruct (reads_only_readPacket fuel proto) as (H1 & H2 & H3).
  destruct (Quic.readPacket fuel proto) as [o s]. cbn [snd] in *.
  destruct o as [p|e| | | |]; cbn [snd]; try (repeat split; assumption).
  destruct (is_errUpdatePacket e); cbn [snd];
    [| repeat split; assumption].
  destruct (IH s) as (K1 & K2 & K3). rewrite K1, K2, K3.
  repeat split; assumption.
Qed.

Lemma reads_only_read (fuel : nat) : reads_only (Quic.read fuel).
Proof. apply reads_only_read_loop. Qed.

(** What follows the write in [Send] only reads. *)
Lemma reads_only_Send_reply (fuel : nat) :
  reads_only
    (p <- Quic.read fuel ;;
     if Quic.flag p =? QuicFlagError
     then msg <- Quic.Decode decode_string (Quic.Payload p) ;;
          fail (ErrNew msg)
     else ret p).
Proof.
  apply reads_only_bind; [apply reads_only_read |]. intros p.
  destruct (Quic.flag p =? QuicFlagError); [| apply reads_only_ret].
  apply reads_only_bind; [apply reads_only_Decode |].
  intros msg. apply reads_only_fail.
Qed.

(** X6: [Send] writes the frame once, before it reads: when the transport
    refuses the write [Send] returns that error and has read nothing, and
    when the write succeeds the transport has received the header and the
    payload and nothing else, whatever the reply turns out to be; [read]
    on its own writes nothing. *)
Theorem Send_writes_the_frame_once :
  forall (fuel : nat) (c : Z) (data : list byte) (proto : Quic.QuicProtocol),
    (forall m,
        Quic.wr_fail (Quic.rw proto) = Some m ->
        Quic.Send fuel c data proto = (Fail (ErrTransport m), proto)) /\
    (Quic.wr_fail (Quic.rw proto) = None ->
     Quic.wr (Quic.rw (snd (Quic.Send fuel c data proto)))
     = Quic.wr (Quic.rw proto) ++ send_header c data ++ data) /\
    Quic.wr (Quic.rw (snd (Quic.read fuel proto))) = Quic.wr (Quic.rw proto).
Proof.
  intros fuel c data proto. split; [| split].
  - intros m Hm. unfold Quic.Send, bind, Quic.rw_Write. rewrite Hm.
    reflexivity.
  - intros Hn. unfold Quic.Send. unfold bind at 1. unfold Quic.rw_Write.
    rewrite Hn.
    match goal with
    | |- context [snd (?m ?s)] =>
        destruct (reads_only_Send_reply fuel s) as (_ & Hw & _)
    end.
    rewrite Hw. reflexivity.
  - apply (reads_only_read fuel proto).
Qed.

(** [Send] and [Get] leave the cached device information as it is. *)
Lemma Send_info (fuel : nat) (c : Z) (data : list byte)
  (proto : Quic.QuicProtocol) :
  Quic.info (snd (Quic.Send fuel c data proto)) = Quic.info proto.
Proof.
  unfold Quic.Send. unfold bind at 1. unfold Quic.rw_Write.
  destruct (Quic.wr_fail (Quic.rw proto)); [reflexivity |].
  match goal with
  | |- context [snd (?m ?s)] =>
      destruct (reads_only_Send_reply fuel s) as (Hi & _ & _)
  end.
  rewrite Hi. reflexivity.
Qed.

Lemma Get_info (fuel : nat) (typ : Z) (proto : Quic.QuicProtocol) :
  Quic.info (snd (Quic.Get fuel typ proto)) = Quic.info proto.
Proof.
  unfold Quic.Get. unfold bind at 1.
  assert (Hs : Quic.info (snd (Quic.SendValue fuel QuicCmdGet [DTag typ] proto))
               = Quic.info proto).
  { unfold Quic.SendValue. destruct (Quic.encode_all [DTag typ]);
      [apply Send_info | reflexivity]. }
  destruct (Quic.SendValue fuel QuicCmdGet [DTag typ] proto) as [o s].
  cbn [snd] in Hs.
  destruct o as [p| | | | |]; cbn [snd]; try exact Hs.
  unfold bind.
  pose proof (Decode1_state (S := Quic.QuicProtocol) decode_tag
                (Quic.Payload p) s) as Hst.
  destruct (Quic.Decode1 decode_tag (Quic.Payload p) s) as [o' s'].
  cbn [snd] in Hst. subst s'.
  destruct o' as [x| | | | |]; cbn [snd]; try exact Hs.
  destruct (negb (typ =? x.1)); exact Hs.
Qed.

(** X7: [Info] stores the device information it has decoded in the
    session and, when it does not return one, leaves what the session had
    stored; [Detect] never returns an error: it answers true exactly when
    [Info] returned, and false when [Info] returned an error, the stored
    information then being what it was. *)
Theorem Info_caches_on_success :
  forall (fuel : nat) (proto : Quic.QuicProtocol),
    (forall i proto',
        Quic.Info fuel proto = (Ret i, proto') ->
        Quic.info proto' = Some i) /\
    (forall o proto',
        Quic.Info fuel proto = (o, proto') -> is_Ret o = false ->
        Quic.info proto' = Quic.info proto) /\
    (forall e proto', Quic.Detect fuel proto <> (Fail e, proto')) /\
    (forall proto',
        Quic.Detect fuel proto = (Ret true, proto') ->
        exists i, Quic.Info fuel proto = (Ret i, proto') /\
                  Quic.info proto' = Some i) /\
    (forall proto',
        Quic.Detect fuel proto = (Ret false, proto') ->
        (exists e, Quic.Info fuel proto = (Fail e, proto')) /\
        Quic.info proto' = Quic.info proto).
Proof.
  intros fuel proto.
  assert (Hinfo : forall o proto',
             Quic.Info fuel proto = (o, proto') ->
             match o with
             | Ret i => Quic.info proto' = Some i
             | _ => Quic.info proto' = Quic.info proto
             end).
  { intros o proto'. unfold Quic.Info. unfold bind at 1.
    pose proof (Get_info fuel QuicValInfo proto) as Hg.
    destruct (Quic.Get fuel QuicValInfo proto) as [og s]. cbn [snd] in Hg.
    destruct og as [r| | | | |];
      try (intros Heq; inversion Heq; subst; exact Hg).
    unfold bind.
    pose proof (Decode_state (S := Quic.QuicProtocol) decode_info r s) as Hst.
    destruct (Quic.Decode decode_info r s) as [od s1].
    cbn [snd] in Hst. subst s1.
    destruct od as [i| | | | |]; intros Heq; inversion Heq; subst;
      (exact Hg || reflexivity). }
  split; [| split; [| split; [| split]]].
  - intros i proto' Hi. apply (Hinfo _ _ Hi).
  - intros o proto' Hi Ho. pose proof (Hinfo _ _ Hi) as Hm.
    destruct o; (exact Hm || discriminate).
  - intros e proto'. unfold Quic.Detect.
    destruct (Quic.Info fuel proto) as [[i| | | | |] s]; discriminate.
  - intros proto'. unfold Quic.Detect.
    destruct (Quic.Info fuel proto) as [[i|e| | | |] s] eqn:Hi;
      try discriminate.
    intros Heq. inversion Heq; subst. exists i. split; [reflexivity |].
    apply (Hinfo _ _ eq_refl).
  - intros proto'. unfold Quic.Detect.
    destruct (Quic.Info fuel proto) as [[i|e| | | |] s] eqn:Hi;
      try discriminate.
    intros Heq. inversion Heq; subst. split; [eauto |].
    apply (Hinfo _ _ eq_refl).
Qed.

(** A sub-frame or streaming payload that has arrived and fits the buffer
    of the [bufio.Writer] is copied into it in one piece. *)
Lemma bw_ReadFrom_0 (t : list read_event) (bw : list byte) (nr : nat) :
  (length bw < Quic.bufio_size)%nat ->
  Quic.bw_ReadFrom t 0 bw nr = (Ret bw, t).
Proof.
  intros Hb.
  destruct t as [|ev t]; cbn [Quic.bw_ReadFrom];
    replace (Quic.bufio_size <=? length bw)%nat with false
      by (symmetry; apply Nat.leb_gt; exact Hb); reflexivity.
Qed.

Lemma bw_CopyN_chunk (bs more : list byte) (t : list read_event) :
  (length bs < Quic.bufio_size)%nat ->
  Quic.bw_CopyN (unread (bs ++ more) t) (length bs) [] = (Ret bs, unread more t).
Proof.
  intros Hb. unfold Quic.bw_CopyN.
  destruct bs as [|b bs].
  - cbn [app length]. apply bw_ReadFrom_0. exact Hb.
  - rewrite unread_app by discriminate.
    change ((b :: bs) ++ more) with (b :: (bs ++ more)).
    cbn [Quic.bw_ReadFrom].
    replace (Quic.bufio_size <=? length (A := byte) [])%nat with false
      by (symmetry; apply Nat.leb_gt; cbn [length] in *; lia).
    change (length (b :: bs)) with (S (length bs)).
    cbv zeta.
    replace (Quic.bufio_size - length (A := byte) [])%nat
      with Quic.bufio_size by (cbn [length]; lia).
    change (length (b :: bs ++ more)) with (S (length (bs ++ more))).
    rewrite length_app.
    cbn [length] in Hb.
    rewrite (Nat.min_l (S (length bs)) Quic.bufio_size) by lia.
    rewrite (Nat.min_r (S (length bs + length more)) (S (length bs))) by lia.
    destruct more as [|m more].
    + cbn [length]. rewrite Nat.add_0_r, Nat.leb_refl, Nat.sub_diag.
      rewrite app_nil_r. cbn [app unread].
      apply bw_ReadFrom_0. cbn [length]. exact Hb.
    + replace (S (length bs + length (m :: more)) <=? S (length bs))%nat
        with false by (symmetry; apply Nat.leb_gt; cbn [length]; lia).
      cbn [app].
      change (b :: bs ++ m :: more) with ((b :: bs) ++ m :: more).
      change (S (length bs)) with (length (b :: bs)).
      rewrite take_app_length, drop_app_length.
      replace (Quic.bufio_size <=? length (b :: bs))%nat with false
        by (symmetry; apply Nat.leb_gt; cbn [length]; lia).
      reflexivity.
Qed.

(** X8: a [Log] packet that is not streaming and whose payload decodes
    as a string is consumed by [readPacket], which reports
    [errUpdatePacket] and leaves the bytes after the frame unread: the
    string is put on the [Log] channel when there is room, dropped when
    the channel is full, and when the channel has been closed the send
    panics. *)
Theorem log_packet_is_consumed :
  forall (fuel k : nat) (proto : Quic.QuicProtocol) (h0 h1 h2 : byte)
         (payload more rest : list byte) (t : list read_event) (val : string),
    Quic.rd (Quic.rw proto) =
      repeat (RData []) k ++
      RData (magic_byte :: h0 :: h1 :: h2 :: payload ++ more) :: t ->
    hdr_cmd h0 = QuicCmdLog ->
    cmd_refused QuicCmdLog = false ->
    hdr_flag h0 <> QuicFlagStreaming ->
    hdr_len h1 h2 = Z.of_nat (length payload) ->
    decode_string payload = DecOk val rest ->
    Quic.readPacket (S fuel) proto =
    if Quic.closed (Quic.Log proto)
    then (Panic "send on closed channel",
          Quic.with_rd proto (unread more t))
    else if (length (Quic.queue (Quic.Log proto))
             <? Quic.capacity (Quic.Log proto))%nat
    then (Fail errUpdatePacket,
          Quic.with_Log (Quic.with_rd proto (unread more t))
            {| Quic.queue := Quic.queue (Quic.Log proto) ++ [val];
               Quic.capacity := Quic.capacity (Quic.Log proto);
               Quic.closed := false |})
    else (Fail errUpdatePacket, Quic.with_rd proto (unread more t)).
Proof.
  intros fuel k proto h0 h1 h2 payload more rest t val Hrd Hc Hok Hs Hl Hd.
  pose proof (readHeader_frame proto k h0 h1 h2 (payload ++ more) t Hrd) as Hh.
  rewrite (readPacket_log (S fuel) _ _ _ payload (unread more t) Hh).
  - unfold bind, Quic.Decode. rewrite Hd. unfold Quic.Log_offer.
    cbn [Quic.with_rd Quic.Log].
    destruct (Quic.closed (Quic.Log proto)); [reflexivity |].
    destruct (length (Quic.queue (Quic.Log proto))
              <? Quic.capacity (Quic.Log proto))%nat; reflexivity.
  - cbn [Quic.cmd]. rewrite Hc. exact Hok.
  - cbn [Quic.flag]. apply Z.eqb_neq. exact Hs.
  - cbn [Quic.len Quic.with_rd Quic.rw Quic.rd]. rewrite Hl, Nat2Z.id.
    apply payload_loop_chunk.
  - cbn [Quic.cmd]. rewrite Hc. reflexivity.
Qed.

(** X9: a packet with the [Streaming] flag that the reader takes for
    itself, a [Log] packet or a pushed [Blackbox] packet, stops
    [readPacket] for good: its payload, shorter than the buffer of the
    [bufio.Writer], sits in that buffer, and the decoder reads the pipe,
    into which nothing has been written and which is not closed. *)
Theorem streaming_push_blocks :
  forall (fuel k : nat) (proto : Quic.QuicProtocol) (h0 h1 h2 : byte)
         (payload more : list byte) (t : list read_event),
    Quic.rd (Quic.rw proto) =
      repeat (RData []) k ++
      RData (magic_byte :: h0 :: h1 :: h2 :: payload ++ more) :: t ->
    cmd_refused (hdr_cmd h0) = false ->
    hdr_flag h0 = QuicFlagStreaming ->
    hdr_len h1 h2 = Z.of_nat (length payload) ->
    (length payload < Quic.bufio_size)%nat ->
    hdr_cmd h0 = QuicCmdLog \/
    (hdr_cmd h0 = QuicCmdBlackbox /\ Quic.blackbox_pushed proto = true) ->
    Quic.readPacket fuel proto = (Blocked, Quic.with_rd proto (unread more t)).
Proof.
  intros fuel k proto h0 h1 h2 payload more t Hrd Hok Hs Hl Hsz Hcmd.
  pose proof (readHeader_frame proto k h0 h1 h2 (payload ++ more) t Hrd) as Hh.
  unfold cmd_refused in Hok.
  unfold Quic.readPacket. unfold bind at 1. rewrite Hh.
  cbn [Quic.cmd Quic.flag Quic.len]. rewrite Hok, Hs, Z.eqb_refl.
  unfold bind at 1. unfold bind at 1. unfold Quic.on_rd at 1.
  cbn [Quic.with_rd Quic.rw Quic.rd]. rewrite Hl, Nat2Z.id.
  rewrite bw_CopyN_chunk by exact Hsz.
  cbn [ret fst snd].
  destruct Hcmd as [Hc | [Hc Hb]]; rewrite Hc.
  - reflexivity.
  - change (QuicCmdBlackbox =? QuicCmdLog) with false. cbn iota.
    change (Quic.blackbox_pushed
              (Quic.with_rd (Quic.with_rd proto (unread (payload ++ more) t))
                 (unread more t)))
      with (Quic.blackbox_pushed proto).
    rewrite Hb. reflexivity.
Qed.

(** A reply that has arrived in one piece: a frame that is not streaming,
    carries neither the [Exit] flag nor a command the reader refuses or
    takes for itself. *)
Lemma readPacket_frame (fuel k : nat) (proto : Quic.QuicProtocol)
  (h0 h1 h2 : byte) (payload more : list byte) (t : list read_event) :
  Quic.rd (Quic.rw proto) =
    repeat (RData []) k ++
    RData (magic_byte :: h0 :: h1 :: h2 :: payload ++ more) :: t ->
  cmd_refused (hdr_cmd h0) = false ->
  hdr_cmd h0 <> QuicCmdLog ->
  Quic.blackbox_pushed proto && (hdr_cmd h0 =? QuicCmdBlackbox) = false ->
  hdr_flag h0 <> QuicFlagStreaming ->
  hdr_flag h0 <> QuicFlagExit ->
  hdr_len h1 h2 = Z.of_nat (length payload) ->
  Quic.readPacket (S fuel) proto =
  (Ret {| Quic.cmd := hdr_cmd h0; Quic.flag := hdr_flag h0;
          Quic.len := hdr_len h1 h2;
          Quic.Payload := Quic.BufReader payload |},
   Quic.with_rd proto (unread more t)).
Proof.
  intros Hrd Hok Hlog Hbb Hs He Hl.
  pose proof (readHeader_frame proto k h0 h1 h2 (payload ++ more) t Hrd) as Hh.
  rewrite (readPacket_reply (S fuel) _ _ _ payload (unread more t) Hh).
  - cbn [Quic.flag].
    replace (hdr_flag h0 =? QuicFlagExit) with false
      by (symmetry; apply Z.eqb_neq; exact He).
    reflexivity.
  - exact Hok.
  - cbn [Quic.flag]. apply Z.eqb_neq. exact Hs.
  - cbn [Quic.len Quic.with_rd Quic.rw Quic.rd]. rewrite Hl, Nat2Z.id.
    apply payload_loop_chunk.
  - apply Z.eqb_neq. exact Hlog.
  - exact Hbb.
Qed.

(** A [Blackbox] frame as [Send] writes it, pushed by the device. *)
Lemma readPacket_sent_blackbox (fuel : nat) (proto : Quic.QuicProtocol)
  (d more : list byte) (t : list read_event) :
  Z.of_nat (length d) <= 65535 ->
  Quic.rd (Quic.rw proto) =
    RData (send_header QuicCmdBlackbox d ++ d ++ more) :: t ->
  Quic.blackbox_pushed proto = true ->
  cmd_refused QuicCmdBlackbox = false ->
  QuicFlagStreaming <> QuicFlagNone ->
  Quic.readPacket (S fuel) proto =
  (Fail errUpdatePacket, Quic.with_rd proto (unread more t)).
Proof.
  intros Hlen Hrd Hb Hok Hs.
  destruct (sent_header_fields QuicCmdBlackbox d Hlen)
    as (h0 & h1 & h2 & Hh & Hcmd & Hflag & Hl).
  rewrite Hh in Hrd. cbn [app] in Hrd.
  pose proof (readHeader_frame proto 0 h0 h1 h2 (d ++ more) t Hrd) as Hread.
  change ((QuicCmdBlackbox mod 256) mod 32) with QuicCmdBlackbox in Hcmd.
  change (QuicCmdBlackbox mod 256 / 32) with QuicFlagNone in Hflag.
  apply (readPacket_blackbox (S fuel) _ _ _ d (unread more t) Hread).
  - cbn [Quic.cmd]. rewrite Hcmd. exact Hok.
  - cbn [Quic.flag]. rewrite Hflag. apply Z.eqb_neq. congruence.
  - cbn [Quic.len Quic.with_rd Quic.rw Quic.rd]. rewrite Hl, Nat2Z.id.
    apply payload_loop_chunk.
  - exact Hcmd.
  - exact Hb.
Qed.

Lemma read_loop_skips_pushed (ds : list (list byte)) :
  forall (n fuel : nat) (c : Z) (data more : list byte)
         (t : list read_event) (proto : Quic.QuicProtocol),
    Forall (fun d => Z.of_nat (length d) <= 65535) ds ->
    Quic.rd (Quic.rw proto) =
      RData (sent_frames QuicCmdBlackbox ds ++
             send_header c data ++ data ++ more) :: t ->
    Quic.blackbox_pushed proto = true ->
    cmd_refused QuicCmdBlackbox = false ->
    0 <= c < 32 ->
    Z.of_nat (length data) <= 65535 ->
    cmd_refused c = false ->
    c <> QuicCmdLog ->
    c <> QuicCmdBlackbox ->
    QuicFlagStreaming <> QuicFlagNone ->
    QuicFlagExit <> QuicFlagNone ->
    (length ds < n)%nat ->
    Quic.read_loop n (S fuel) proto =
    (Ret {| Quic.cmd := c; Quic.flag := QuicFlagNone;
            Quic.len := Z.of_nat (length data);
            Quic.Payload := Quic.BufReader data |},
     Quic.with_rd proto (unread more t)).
Proof.
  induction ds as [|d ds IH];
    intros n fuel c data more t proto Hds Hrd Hb Hokb Hc Hlen Hok Hlog Hnb
           Hs He Hn;
    (destruct n as [|n]; [cbn [length] in Hn; lia |]);
    cbn [Quic.read_loop].
  - cbn [sent_frames app] in Hrd.
    destruct (sent_header_fields c data Hlen)
      as (h0 & h1 & h2 & Hh & Hcmd & Hflag & Hl).
    rewrite Hh in Hrd. cbn [app] in Hrd.
    rewrite (Z.mod_small c 256), (Z.mod_small c 32) in Hcmd by lia.
    rewrite (Z.mod_small c 256), (Z.div_small c 32) in Hflag by lia.
    rewrite (readPacket_frame fuel 0 proto h0 h1 h2 data more t Hrd);
      rewrite ?Hcmd, ?Hflag, ?Hl; try reflexivity; try assumption.
    + replace (c =? QuicCmdBlackbox) with false
        by (symmetry; apply Z.eqb_neq; exact Hnb).
      apply andb_false_r.
    + unfold QuicFlagNone in *. congruence.
    + unfold QuicFlagNone in *. congruence.
  - cbn [sent_frames] in Hrd. rewrite <- !app_assoc in Hrd.
    inversion Hds as [|d' ds' Hd Hds']; subst.
    rewrite (readPacket_sent_blackbox fuel proto d _ t Hd Hrd Hb Hokb Hs).
    cbn [is_errUpdatePacket].
    assert (Hne : forall (x : list byte),
               unread (x ++ send_header c data ++ data ++ more) t
               = RData (x ++ send_header c data ++ data ++ more) :: t).
    { intros x. destruct x; reflexivity. }
    rewrite (IH n fuel c data more t); auto.
    + cbn [Quic.with_rd Quic.rw Quic.rd]. apply Hne.
    + cbn [length] in Hn. lia.
Qed.

(** X10: telemetry the device pushes between a request and its reply
    does not reach the caller: whatever number of [Blackbox] frames comes
    first, and whether their payloads decode or not, [read] consumes them
    and returns the reply that follows, provided the session takes
    [Blackbox] packets for itself and [read] is given one turn per
    frame. *)
Theorem read_skips_pushed_telemetry :
  forall (ds : list (list byte)) (fuel : nat) (c : Z) (data more : list byte)
         (t : list read_event) (proto : Quic.QuicProtocol),
    Forall (fun d => Z.of_nat (length d) <= 65535) ds ->
    Quic.rd (Quic.rw proto) =
      RData (sent_frames QuicCmdBlackbox ds ++
             send_header c data ++ data ++ more) :: t ->
    Quic.blackbox_pushed proto = true ->
    cmd_refused QuicCmdBlackbox = false ->
    0 <= c < 32 ->
    Z.of_nat (length data) <= 65535 ->
    cmd_refused c = false ->
    c <> QuicCmdLog ->
    c <> QuicCmdBlackbox ->
    QuicFlagStreaming <> QuicFlagNone ->
    QuicFlagExit <> QuicFlagNone ->
    (length ds < fuel)%nat ->
    Quic.read fuel proto =
    (Ret {| Quic.cmd := c; Quic.flag := QuicFlagNone;
            Quic.len := Z.of_nat (length data);
            Quic.Payload := Quic.BufReader data |},
     Quic.with_rd proto (unread more t)).
Proof.
  intros ds fuel c data more t proto Hds Hrd Hb Hokb Hc Hlen Hok Hlog Hnb
         Hs He Hn.
  destruct fuel as [|fuel]; [lia |].
  unfold Quic.read. apply (read_loop_skips_pushed ds); auto.
Qed.

(** What [Send] returns for a reply that has arrived in one piece. *)
Lemma Send_frame (fuel k : nat) (c : Z) (data : list byte)
  (proto : Quic.QuicProtocol) (h0 h1 h2 : byte) (payload more : list byte)
  (t : list read_event) :
  Quic.wr_fail (Quic.rw proto) = None ->
  Quic.rd (Quic.rw proto) =
    repeat (RData []) k ++
    RData (magic_byte :: h0 :: h1 :: h2 :: payload ++ more) :: t ->
  cmd_refused (hdr_cmd h0) = false ->
  hdr_cmd h0 <> QuicCmdLog ->
  Quic.blackbox_pushed proto && (hdr_cmd h0 =? QuicCmdBlackbox) = false ->
  hdr_flag h0 <> QuicFlagStreaming ->
  hdr_flag h0 <> QuicFlagExit ->
  hdr_flag h0 <> QuicFlagError ->
  hdr_len h1 h2 = Z.of_nat (length payload) ->
  Quic.Send (S fuel) c data proto =
  (Ret {| Quic.cmd := hdr_cmd h0; Quic.flag := hdr_flag h0;
          Quic.len := hdr_len h1 h2;
          Quic.Payload := Quic.BufReader payload |},
   {| Quic.Log := Quic.Log proto; Quic.info := Quic.info proto;
      Quic.rw := {| Quic.rd := unread more t;
                    Quic.wr := Quic.wr (Quic.rw proto)
                               ++ send_header c data ++ data;
                    Quic.wr_fail := None |} |}).
Proof.
  intros Hw Hrd Hok Hlog Hbb Hs He Herr Hl.
  unfold Quic.Send. unfold bind at 1. unfold Quic.rw_Write. rewrite Hw.
  unfold bind at 1. unfold Quic.read. cbn [Quic.read_loop].
  erewrite (readPacket_frame fuel k _ h0 h1 h2 payload more t);
    [| exact Hrd | exact Hok | exact Hlog | exact Hbb | exact Hs | exact He
     | exact Hl].
  cbn [Quic.flag].
  replace (hdr_flag h0 =? QuicFlagError) with false
    by (symmetry; apply Z.eqb_neq; exact Herr).
  reflexivity.
Qed.

(** X12: a typed get end to end.  The request written is the header for
    [QuicCmdGet] and the encoded tag; when the reply that arrives echoes
    the tag in its first byte and the bytes after it decode as a value,
    [GetValue] returns that value.  The command of the reply is not
    compared with [QuicCmdGet]: any command the reader hands on will
    do. *)
Theorem GetValue_round_trip :
  forall (fuel k : nat) (typ : Z) (req : list byte) (v : V)
         (proto : Quic.QuicProtocol) (h0 h1 h2 : byte)
         (payload more rest rest' : list byte) (t : list read_event),
    encode_tag typ = EncOk req ->
    Quic.wr_fail (Quic.rw proto) = None ->
    Quic.rd (Quic.rw proto) =
      repeat (RData []) k ++
      RData (magic_byte :: h0 :: h1 :: h2 :: payload ++ more) :: t ->
    cmd_refused (hdr_cmd h0) = false ->
    hdr_cmd h0 <> QuicCmdLog ->
    Quic.blackbox_pushed proto && (hdr_cmd h0 =? QuicCmdBlackbox) = false ->
    hdr_flag h0 <> QuicFlagStreaming ->
    hdr_flag h0 <> QuicFlagExit ->
    hdr_flag h0 <> QuicFlagError ->
    hdr_len h1 h2 = Z.of_nat (length payload) ->
    decode_tag (take 1 payload) = DecOk typ rest ->
    decode_value (drop 1 payload) = DecOk v rest' ->
    Quic.GetValue (S fuel) typ proto =
    (Ret v,
     {| Quic.Log := Quic.Log proto; Quic.info := Quic.info proto;
        Quic.rw := {| Quic.rd := unread more t;
                      Quic.wr := Quic.wr (Quic.rw proto)
                                 ++ send_header QuicCmdGet req ++ req;
                      Quic.wr_fail := None |} |}).
Proof.
  intros fuel k typ req v proto h0 h1 h2 payload more rest rest' t
         Henc Hw Hrd Hok Hlog Hbb Hs He Herr Hl Htag Hval.
  unfold Quic.GetValue. unfold bind at 1.
  assert (Hsv : Quic.SendValue (S fuel) QuicCmdGet [DTag typ] proto
                = Quic.Send (S fuel) QuicCmdGet req proto).
  { unfold Quic.SendValue. cbn [Quic.encode_all encode_dyn].
    rewrite Henc, app_nil_r. reflexivity. }
  pose proof (Send_frame fuel k QuicCmdGet req proto h0 h1 h2 payload more t
                Hw Hrd Hok Hlog Hbb Hs He Herr Hl) as Hsend.
  rewrite <- Hsv in Hsend.
  unfold Quic.Get. unfold bind at 1. rewrite Hsend.
  unfold bind, Quic.Decode1. cbn [Quic.Payload]. rewrite Htag.
  cbn [fst snd]. rewrite Z.eqb_refl. cbn [negb ret].
  unfold Quic.Decode. rewrite Hval. reflexivity.
Qed.

(** ** Further properties of the controller *)

Lemma ReadAtLeast_chunk (bs more : list byte) (t : list read_event) :
  ReadAtLeast (unread (bs ++ more) t) (length bs) = (Ret bs, unread more t).
Proof.
  unfold ReadAtLeast. destruct bs as [|b bs].
  - cbn [length app]. rewrite read_full_0. reflexivity.
  - rewrite unread_app by discriminate.
    rewrite read_full_chunk by discriminate. reflexivity.
Qed.

(** [ReadQUIC] on a frame that has arrived in one piece: what is left to
    do once header and payload have been read. *)
Lemma ReadQUIC_frame (ctl : Controller.Controller (V := V))
  (h0 h1 h2 : byte) (payload more : list byte) (t : list read_event) :
  Controller.input ctl = RData (h0 :: h1 :: h2 :: payload ++ more) :: t ->
  hdr_len h1 h2 = Z.of_nat (length payload) ->
  Controller.ReadQUIC ctl =
  (if hdr_cmd h0 =? QuicCmdLog
   then match decode_string payload with
        | DecErr _ => fun c => (Fatal, c)
        | DecOk val _ => Controller.QuicLog_send val
        end
   else if hdr_cmd h0 =? QuicCmdBlackbox
   then match decode_value payload with
        | DecErr _ => fun c => (Fatal, c)
        | DecOk val _ => Controller.QuicBlackbox_send val
        end
   else Controller.dispatch
          {| Controller.cmd := hdr_cmd h0; Controller.flag := hdr_flag h0;
             Controller.len := hdr_len h1 h2;
             Controller.payload := payload |})
    (Controller.with_input ctl (unread more t)).
Proof.
  intros Hin Hl. unfold Controller.ReadQUIC. unfold bind at 1.
  unfold Controller.readAtLeast at 1. rewrite Hin.
  change (Z.to_nat (quicHeaderLen - 1)) with (length [h0; h1; h2]).
  change (RData (h0 :: h1 :: h2 :: payload ++ more) :: t)
    with (unread ([h0; h1; h2] ++ payload ++ more) t).
  rewrite ReadAtLeast_chunk. cbn [lookup list_lookup].
  unfold bind at 1. unfold Controller.readAtLeast at 1.
  cbn [Controller.input Controller.with_input].
  rewrite Hl, Nat2Z.id, ReadAtLeast_chunk, Nat.eqb_refl.
  cbn [negb]. reflexivity.
Qed.

(** The hand-over of a reply that is read while its caller is parked. *)
Lemma SendQUIC_handoff (c_ : Z) (data : list byte)
  (ctl : Controller.Controller (V := V)) (h0 h1 h2 : byte)
  (payload more : list byte) (t : list read_event) :
  Controller.input ctl = RData (h0 :: h1 :: h2 :: payload ++ more) :: t ->
  hdr_len h1 h2 = Z.of_nat (length payload) ->
  hdr_cmd h0 = c_ ->
  c_ <> QuicCmdLog ->
  c_ <> QuicCmdBlackbox ->
  hdr_flag h0 <> QuicFlagError ->
  Controller.SendQUIC 1 c_ data ctl =
  (Ret {| Controller.cmd := c_; Controller.flag := hdr_flag h0;
          Controller.len := hdr_len h1 h2;
          Controller.payload := payload |},
   {| Controller.input := unread more t;
      Controller.writeChannel :=
        Controller.writeChannel ctl ++ [send_header c_ data ++ data];
      Controller.quicChannel :=
        <[c_ := Controller.Idle]>
          (<[c_ := Controller.Handed
                     {| Controller.cmd := c_; Controller.flag := hdr_flag h0;
                        Controller.len := hdr_len h1 h2;
                        Controller.payload := payload |}]>
             (<[c_ := Controller.Parked (1 * Controller.Second)]>
                (Controller.quicChannel ctl)));
      Controller.QuicLog := Controller.QuicLog ctl;
      Controller.QuicBlackbox := Controller.QuicBlackbox ctl |}).
Proof.
  intros Hin Hl Hc Hlog Hbb Hf.
  unfold Controller.SendQUIC. cbn [Controller.reader_runs]. unfold bind at 1.
  rewrite (ReadQUIC_frame (Controller.SendQUIC_send c_ data ctl)
             h0 h1 h2 payload more t Hin Hl).
  rewrite Hc.
  replace (c_ =? QuicCmdLog) with false
    by (symmetry; apply Z.eqb_neq; exact Hlog).
  replace (c_ =? QuicCmdBlackbox) with false
    by (symmetry; apply Z.eqb_neq; exact Hbb).
  unfold Controller.dispatch, Controller.with_input, Controller.SendQUIC_send.
  cbn [Controller.cmd Controller.quicChannel Controller.input
       Controller.writeChannel Controller.QuicLog Controller.QuicBlackbox].
  rewrite lookup_insert_eq.
  unfold Controller.with_quicChannel.
  cbn [ret Controller.quicChannel Controller.input
       Controller.writeChannel Controller.QuicLog Controller.QuicBlackbox].
  unfold Controller.SendQUIC_select, Controller.with_quicChannel.
  cbn [Controller.quicChannel Controller.input
       Controller.writeChannel Controller.QuicLog Controller.QuicBlackbox].
  rewrite lookup_insert_eq. cbn [Controller.flag].
  replace (hdr_flag h0 =? QuicFlagError) with false
    by (symmetry; apply Z.eqb_neq; exact Hf).
  reflexivity.
Qed.

(** X13: the reply the reader reads while a caller of [SendQUIC] is
    parked on the channel of its command is handed to that caller, which
    returns it with its payload when it does not carry the [Error] flag;
    the channel is idle afterwards.  The command is any value a header
    can hold but [QuicCmdLog] and [QuicCmdBlackbox]: the controller checks
    no range. *)
Theorem SendQUIC_receives_reply :
  forall (c_ : Z) (data : list byte) (ctl : Controller.Controller (V := V))
         (h0 h1 h2 : byte) (payload more : list byte) (t : list read_event),
    Controller.input ctl = RData (h0 :: h1 :: h2 :: payload ++ more) :: t ->
    hdr_len h1 h2 = Z.of_nat (length payload) ->
    hdr_cmd h0 = c_ ->
    c_ <> QuicCmdLog ->
    c_ <> QuicCmdBlackbox ->
    hdr_flag h0 <> QuicFlagError ->
    fst (Controller.SendQUIC 1 c_ data ctl) =
      Ret {| Controller.cmd := c_; Controller.flag := hdr_flag h0;
             Controller.len := hdr_len h1 h2;
             Controller.payload := payload |} /\
    Controller.quicChannel (snd (Controller.SendQUIC 1 c_ data ctl)) !! c_
      = Some Controller.Idle /\
    Controller.input (snd (Controller.SendQUIC 1 c_ data ctl))
      = unread more t.
Proof.
  intros c_ data ctl h0 h1 h2 payload more t Hin Hl Hc Hlog Hbb Hf.
  rewrite (SendQUIC_handoff c_ data ctl h0 h1 h2 payload more t
             Hin Hl Hc Hlog Hbb Hf).
  cbn [fst snd Controller.quicChannel Controller.input].
  split; [reflexivity |]. split; [apply lookup_insert_eq | reflexivity].
Qed.

(** X14: a typed get of the controller end to end: when the reply to
    [QuicCmdGet] that the reader reads while the caller waits echoes the
    tag and the bytes after the tag decode as a value, [GetQUIC] returns
    that value.  One decoder reads tag and value from the whole payload,
    so the tag may take any number of bytes. *)
Theorem GetQUIC_round_trip :
  forall (typ : Z) (req : list byte) (v : V)
         (ctl : Controller.Controller (V := V)) (h0 h1 h2 : byte)
         (payload more rest rest' : list byte) (t : list read_event),
    encode_tag typ = EncOk req ->
    Controller.input ctl = RData (h0 :: h1 :: h2 :: payload ++ more) :: t ->
    hdr_len h1 h2 = Z.of_nat (length payload) ->
    hdr_cmd h0 = QuicCmdGet ->
    hdr_flag h0 <> QuicFlagError ->
    decode_tag payload = DecOk typ rest ->
    decode_value rest = DecOk v rest' ->
    fst (Controller.GetQUIC 1 typ ctl) = Ret v.
Proof.
  intros typ req v ctl h0 h1 h2 payload more rest rest' t
         Henc Hin Hl Hc Hf Htag Hval.
  unfold Controller.GetQUIC. rewrite Henc. unfold bind.
  rewrite (SendQUIC_handoff QuicCmdGet req ctl h0 h1 h2 payload more t
             Hin Hl Hc ltac:(discriminate) ltac:(discriminate) Hf).
  unfold Controller.decode_reply.
  cbn [Controller.payload]. rewrite Htag, Z.eqb_refl. cbn [negb].
  rewrite Hval. reflexivity.
Qed.

(** X15: a reply that arrives when nobody is parked on the channel of its
    command (no call under way, a call that has timed out, or a call
    that has its packet already) is dropped: [ReadQUIC] returns nil and
    has changed nothing but its position in the input. *)
Theorem ReadQUIC_drops_unawaited :
  forall (ctl : Controller.Controller (V := V)) (h0 h1 h2 : byte)
         (payload more : list byte) (t : list read_event),
    Controller.input ctl = RData (h0 :: h1 :: h2 :: payload ++ more) :: t ->
    hdr_len h1 h2 = Z.of_nat (length payload) ->
    hdr_cmd h0 <> QuicCmdLog ->
    hdr_cmd h0 <> QuicCmdBlackbox ->
    (forall d, Controller.quicChannel ctl !! hdr_cmd h0
               <> Some (Controller.Parked d)) ->
    Controller.ReadQUIC ctl
    = (Ret tt, Controller.with_input ctl (unread more t)).
Proof.
  intros ctl h0 h1 h2 payload more t Hin Hl Hlog Hbb Hnp.
  rewrite (ReadQUIC_frame ctl h0 h1 h2 payload more t Hin Hl).
  replace (hdr_cmd h0 =? QuicCmdLog) with false
    by (symmetry; apply Z.eqb_neq; exact Hlog).
  replace (hdr_cmd h0 =? QuicCmdBlackbox) with false
    by (symmetry; apply Z.eqb_neq; exact Hbb).
  unfold Controller.dispatch.
  cbn [Controller.cmd Controller.with_input Controller.quicChannel].
  destruct (Controller.quicChannel ctl !! hdr_cmd h0) as [[|d|q]|] eqn:Hq;
    try reflexivity.
  exfalso. exact (Hnp d eq_refl).
Qed.

(** X16: a log packet read by the controller: when its payload decodes as
    a string and [QuicLog] has room the string is appended to [QuicLog]
    and the channels of the commands are left alone; when the payload
    does not decode, [ReadQUIC] ends the process with [log.Fatal]. *)
Theorem ReadQUIC_log_line :
  forall (ctl : Controller.Controller (V := V)) (h0 h1 h2 : byte)
         (payload more : list byte) (t : list read_event),
    Controller.input ctl = RData (h0 :: h1 :: h2 :: payload ++ more) :: t ->
    hdr_len h1 h2 = Z.of_nat (length payload) ->
    hdr_cmd h0 = QuicCmdLog ->
    (forall val rest,
        decode_string payload = DecOk val rest ->
        (length (Controller.QuicLog ctl) < 100)%nat ->
        Controller.ReadQUIC ctl =
        (Ret tt,
         {| Controller.input := unread more t;
            Controller.writeChannel := Controller.writeChannel ctl;
            Controller.quicChannel := Controller.quicChannel ctl;
            Controller.QuicLog := Controller.QuicLog ctl ++ [val];
            Controller.QuicBlackbox := Controller.QuicBlackbox ctl |})) /\
    (forall m,
        decode_string payload = DecErr m ->
        Controller.ReadQUIC ctl
        = (Fatal, Controller.with_input ctl (unread more t))).
Proof.
  intros ctl h0 h1 h2 payload more t Hin Hl Hc.
  rewrite (ReadQUIC_frame ctl h0 h1 h2 payload more t Hin Hl), Hc.
  change (QuicCmdLog =? QuicCmdLog) with true. cbn iota. split.
  - intros val rest Hd Hroom. rewrite Hd. unfold Controller.QuicLog_send.
    cbn [Controller.QuicLog Controller.with_input].
    replace (length (Controller.QuicLog ctl) <? 100)%nat with true
      by (symmetry; apply Nat.ltb_lt; exact Hroom).
    reflexivity.
  - intros m Hd. rewrite Hd. reflexivity.
Qed.

(** ** Streaming packets that are handed on *)

(** A streaming frame whose payload fits the buffer of the
    [bufio.Writer], followed at once by the sub-frame of length 0. *)
Lemma readPacket_stream_end (fuel k : nat) (proto : Quic.QuicProtocol)
  (h0 h1 h2 g0 g1 g2 : byte) (payload more : list byte)
  (t : list read_event) :
  Quic.rd (Quic.rw proto) =
    repeat (RData []) k ++
    RData (magic_byte :: h0 :: h1 :: h2 ::
           payload ++ magic_byte :: g0 :: g1 :: g2 :: more) :: t ->
  cmd_refused (hdr_cmd h0) = false ->
  hdr_cmd h0 <> QuicCmdLog ->
  Quic.blackbox_pushed proto && (hdr_cmd h0 =? QuicCmdBlackbox) = false ->
  hdr_flag h0 = QuicFlagStreaming ->
  QuicFlagExit <> QuicFlagStreaming ->
  hdr_len h1 h2 = Z.of_nat (length payload) ->
  (length payload < Quic.bufio_size)%nat ->
  hdr_len g1 g2 = 0 ->
  Quic.readPacket (S fuel) proto =
  (match payload with
   | [] => Ret {| Quic.cmd := hdr_cmd h0; Quic.flag := QuicFlagStreaming;
                  Quic.len := 0; Quic.Payload := Quic.PipeReader true |}
   | _ :: _ => Blocked
   end,
   Quic.with_rd proto (unread more t)).
Proof.
  intros Hrd Hok Hlog Hbb Hs Hex Hl Hsz Hg.
  pose proof (readHeader_frame proto k h0 h1 h2
                (payload ++ magic_byte :: g0 :: g1 :: g2 :: more) t Hrd)
    as Hh.
  unfold cmd_refused in Hok.
  unfold Quic.readPacket. unfold bind at 1. rewrite Hh.
  cbn [Quic.cmd Quic.flag Quic.len]. rewrite Hok, Hs, Z.eqb_refl.
  unfold bind at 1. unfold bind at 1. unfold Quic.on_rd at 1.
  cbn [Quic.with_rd Quic.rw Quic.rd]. rewrite Hl, Nat2Z.id.
  rewrite bw_CopyN_chunk by exact Hsz.
  cbn [ret fst snd].
  replace (hdr_cmd h0 =? QuicCmdLog) with false
    by (symmetry; apply Z.eqb_neq; exact Hlog).
  change (Quic.blackbox_pushed
            (Quic.with_rd
               (Quic.with_rd proto
                  (unread (payload ++ magic_byte :: g0 :: g1 :: g2 :: more) t))
               (unread (magic_byte :: g0 :: g1 :: g2 :: more) t)))
    with (Quic.blackbox_pushed proto).
  rewrite Hbb.
  replace (QuicFlagStreaming =? QuicFlagExit) with false
    by (symmetry; apply Z.eqb_neq; congruence).
  unfold bind, Quic.on_rd.
  cbn [Quic.with_rd Quic.rw Quic.rd unread Quic.stream_loop].
  rewrite readHeader_rd_frame. cbn [Quic.len]. rewrite Hg.
  change (0 =? 0) with true. cbn iota.
  destruct payload as [|b payload]; reflexivity.
Qed.

(** X17: a reply sent as a streaming packet with a payload, followed at
    once by the sub-frame of length 0, is never returned, whatever the
    payload: [readPacket] stops in the flush of the [bufio.Writer] into
    the pipe, which no reader serves. *)
Theorem streamed_reply_blocks :
  forall (fuel k : nat) (proto : Quic.QuicProtocol)
         (h0 h1 h2 g0 g1 g2 : byte) (payload more : list byte)
         (t : list read_event),
    Quic.rd (Quic.rw proto) =
      repeat (RData []) k ++
      RData (magic_byte :: h0 :: h1 :: h2 ::
             payload ++ magic_byte :: g0 :: g1 :: g2 :: more) :: t ->
    cmd_refused (hdr_cmd h0) = false ->
    hdr_cmd h0 <> QuicCmdLog ->
    Quic.blackbox_pushed proto && (hdr_cmd h0 =? QuicCmdBlackbox) = false ->
    hdr_flag h0 = QuicFlagStreaming ->
    QuicFlagExit <> QuicFlagStreaming ->
    hdr_len h1 h2 = Z.of_nat (length payload) ->
    (0 < length payload < Quic.bufio_size)%nat ->
    hdr_len g1 g2 = 0 ->
    Quic.readPacket (S fuel) proto
    = (Blocked, Quic.with_rd proto (unread more t)).
Proof.
  intros fuel k proto h0 h1 h2 g0 g1 g2 payload more t
         Hrd Hok Hlog Hbb Hs Hex Hl Hsz Hg.
  rewrite (readPacket_stream_end fuel k proto h0 h1 h2 g0 g1 g2 payload more t);
    try assumption; [| lia].
  destruct payload; [cbn [length] in Hsz; lia | reflexivity].
Qed.

(** X18: a streaming packet without any payload, its first frame of
    length 0 followed at once by the sub-frame of length 0, is returned:
    its payload is the closed pipe, from which a decoder gets the end of
    the input. *)
Theorem empty_stream_is_returned :
  forall (fuel k : nat) (proto : Quic.QuicProtocol)
         (h0 h1 h2 g0 g1 g2 : byte) (more : list byte) (t : list read_event),
    Quic.rd (Quic.rw proto) =
      repeat (RData []) k ++
      RData (magic_byte :: h0 :: h1 :: h2 ::
             magic_byte :: g0 :: g1 :: g2 :: more) :: t ->
    cmd_refused (hdr_cmd h0) = false ->
    hdr_cmd h0 <> QuicCmdLog ->
    Quic.blackbox_pushed proto && (hdr_cmd h0 =? QuicCmdBlackbox) = false ->
    hdr_flag h0 = QuicFlagStreaming ->
    QuicFlagExit <> QuicFlagStreaming ->
    hdr_len h1 h2 = 0 ->
    hdr_len g1 g2 = 0 ->
    Quic.readPacket (S fuel) proto =
    (Ret {| Quic.cmd := hdr_cmd h0; Quic.flag := QuicFlagStreaming;
            Quic.len := 0; Quic.Payload := Quic.PipeReader true |},
     Quic.with_rd proto (unread more t)).
Proof.
  intros fuel k proto h0 h1 h2 g0 g1 g2 more t Hrd Hok Hlog Hbb Hs Hex Hl Hg.
  apply (readPacket_stream_end fuel k proto h0 h1 h2 g0 g1 g2 [] more t);
    try assumption.
  unfold Quic.bufio_size. cbn [length]. lia.
Qed.

(** X19: a typed set end to end.  The request written is the header for
    [QuicCmdSet] and a payload made of the encoded tag followed by the
    encoded value; when the reply echoes the tag in its first byte,
    [SetValue] returns the value decoded from the bytes after it, which
    is the value of the device and not the one that was sent. *)
Theorem SetValue_round_trip :
  forall (fuel k : nat) (typ : Z) (tb vb : list byte) (v v' : V)
         (proto : Quic.QuicProtocol) (h0 h1 h2 : byte)
         (payload more rest rest' : list byte) (t : list read_event),
    encode_tag typ = EncOk tb ->
    encode_value v = EncOk vb ->
    Quic.wr_fail (Quic.rw proto) = None ->
    Quic.rd (Quic.rw proto) =
      repeat (RData []) k ++
      RData (magic_byte :: h0 :: h1 :: h2 :: payload ++ more) :: t ->
    cmd_refused (hdr_cmd h0) = false ->
    hdr_cmd h0 <> QuicCmdLog ->
    Quic.blackbox_pushed proto && (hdr_cmd h0 =? QuicCmdBlackbox) = false ->
    hdr_flag h0 <> QuicFlagStreaming ->
    hdr_flag h0 <> QuicFlagExit ->
    hdr_flag h0 <> QuicFlagError ->
    hdr_len h1 h2 = Z.of_nat (length payload) ->
    decode_tag (take 1 payload) = DecOk typ rest ->
    decode_value (drop 1 payload) = DecOk v' rest' ->
    Quic.SetValue (S fuel) typ v proto =
    (Ret v',
     {| Quic.Log := Quic.Log proto; Quic.info := Quic.info proto;
        Quic.rw := {| Quic.rd := unread more t;
                      Quic.wr := Quic.wr (Quic.rw proto)
                                 ++ send_header QuicCmdSet (tb ++ vb)
                                 ++ tb ++ vb;
                      Quic.wr_fail := None |} |}).
Proof.
  intros fuel k typ tb vb v v' proto h0 h1 h2 payload more rest rest' t
         Ht Hv Hw Hrd Hok Hlog Hbb Hs He Herr Hl Htag Hval.
  unfold Quic.SetValue. rewrite Hv. unfold bind at 1.
  unfold Quic.Set_. rewrite Ht. unfold bind at 1.
  rewrite (Send_frame fuel k QuicCmdSet (tb ++ vb) proto h0 h1 h2 payload
             more t Hw Hrd Hok Hlog Hbb Hs He Herr Hl).
  unfold bind, Quic.Decode1. cbn [Quic.Payload]. rewrite Htag.
  cbn [fst snd]. rewrite Z.eqb_refl. cbn [negb ret].
  unfold Quic.Decode. rewrite Hval. reflexivity.
Qed.

(** ** Errors of the payload loop *)

(** What [io.CopyN] returns when the transport fails before the bytes
    asked for have come: the failure, or an [io.EOF] met before it. *)
Lemma read_full_before_error (m : string) (t2 : list read_event)
  (t1 : list read_event) :
  forall n,
    error_free t1 = true ->
    (length (bytes_of t1) < n)%nat ->
    exists got e t',
      read_full (t1 ++ RErr m :: t2) n = (got, Some e, t') /\
      ((e = ErrTransport m /\ t' = t2 /\ got = bytes_of t1) \/
       (e = EOF /\
        exists t1', t' = t1' ++ RErr m :: t2 /\
                    error_free t1' = true /\
                    bytes_of t1 = got ++ bytes_of t1' /\
                    (length t1' < length t1)%nat)).
Proof.
  induction t1 as [|ev t1 IH]; intros n Hef Hn.
  - destruct n as [|n]; [cbn [bytes_of length] in Hn; lia |].
    exists [], (ErrTransport m), t2. split; [reflexivity |]. left. auto.
  - destruct n as [|n]; [lia |].
    destruct ev as [bs| |m']; cbn [error_free] in Hef; [| | discriminate].
    + cbn [bytes_of] in Hn. rewrite length_app in Hn.
      cbn [app read_full].
      replace (length bs <=? S n)%nat with true
        by (symmetry; apply Nat.leb_le; lia).
      destruct (IH (S n - length bs)%nat Hef ltac:(lia))
        as (got & e & t' & Hr & Hcase).
      rewrite Hr. exists (bs ++ got), e, t'. split; [reflexivity |].
      destruct Hcase as [(-> & -> & ->) | (-> & t1' & -> & He & Hb & Hl)].
      * left. auto.
      * right. split; [reflexivity |]. exists t1'.
        split; [reflexivity |]. split; [exact He |]. split.
        -- cbn [bytes_of]. rewrite Hb, app_assoc. reflexivity.
        -- cbn [length]. lia.
    + exists [], EOF, (t1 ++ RErr m :: t2). split; [reflexivity |].
      right. split; [reflexivity |]. exists t1.
      split; [reflexivity |]. split; [exact Hef |].
      split; [reflexivity | cbn [length]; lia].
Qed.

Lemma payload_loop_fails (m : string) (t2 : list read_event) (n fuel : nat) :
  forall (b : list byte) (t1 : list read_event),
    error_free t1 = true ->
    (length b + length (bytes_of t1) < n)%nat ->
    (length t1 < fuel)%nat ->
    Quic.payload_loop fuel n b (t1 ++ RErr m :: t2)
    = (Fail (ErrTransport m), t2).
Proof.
  induction fuel as [|fuel IH]; intros b t1 Hef Hn Hf; [lia |].
  cbn [Quic.payload_loop].
  replace (length b =? n)%nat with false
    by (symmetry; apply Nat.eqb_neq; lia).
  unfold CopyN.
  destruct (read_full_before_error m t2 t1 (n - length b) Hef ltac:(lia))
    as (got & e & t' & Hr & Hcase).
  rewrite Hr.
  destruct Hcase as [(-> & -> & _) | (-> & t1' & -> & He & Hb & Hl)].
  - reflexivity.
  - cbn [is_EOF]. apply IH; [exact He | | lia].
    rewrite length_app. rewrite Hb, length_app in Hn. lia.
Qed.

(** X20: an error of the transport other than [io.EOF] that comes before
    the payload is complete ends the payload loop at once with that
    error, whatever was read before it and however many [io.EOF] were
    passed over; the bytes after the failure stay unread. *)
Theorem payload_loop_returns_transport_error :
  forall (n : nat) (m : string) (t1 t2 : list read_event),
    error_free t1 = true ->
    (length (bytes_of t1) < n)%nat ->
    Quic.payload_loop (S (length t1)) n [] (t1 ++ RErr m :: t2)
    = (Fail (ErrTransport m), t2).
Proof.
  intros n m t1 t2 Hef Hn.
  apply payload_loop_fails; [exact Hef | cbn [length]; lia | lia].
Qed.

(** X21: no run of the payload loop of [readPacket] ends with
    [ErrShortRead], whatever the transport does and however long the loop
    runs: the test [n == 0] that guards it follows a nil error of
    [io.CopyN], which has then copied every byte asked for, at least
    one. *)
Theorem payload_loop_has_no_short_read :
  forall (fuel n : nat) (t : list read_event),
    fst (Quic.payload_loop fuel n [] t) <> Fail ErrShortRead.
Proof.
  intros fuel n t. apply payload_loop_never_short_read. cbn [length]. lia.
Qed.

(** ** Requests *)

(** X22: the payload [SendValue] sends is the encodings of its arguments
    one after the other, in the order given; when an argument does not
    encode, [SendValue] returns the error of the first such argument and
    sends nothing. *)
Theorem SendValue_payload :
  forall (fuel : nat) (c : Z) (vals : list (dyn V))
         (proto : Quic.QuicProtocol),
    match Quic.encode_all vals with
    | EncOk bs =>
        (exists encs,
            Forall2 (fun v e => encode_dyn v = EncOk e) vals encs /\
            bs = List.concat encs) /\
        Quic.SendValue fuel c vals proto = Quic.Send fuel c bs proto
    | EncErr m =>
        (exists pre v post,
            vals = pre ++ v :: post /\
            encode_dyn v = EncErr m /\
            Forall (fun u => exists e, encode_dyn u = EncOk e) pre) /\
        Quic.SendValue fuel c vals proto = (Fail (ErrCodec m), proto)
    end.
Proof.
  intros fuel c vals proto.
  assert (Hs : Quic.SendValue fuel c vals proto =
               match Quic.encode_all vals with
               | EncOk bs => Quic.Send fuel c bs proto
               | EncErr m => (Fail (ErrCodec m), proto)
               end).
  { unfold Quic.SendValue. destruct (Quic.encode_all vals); reflexivity. }
  assert (He : match Quic.encode_all vals with
               | EncOk bs =>
                   exists encs,
                     Forall2 (fun v e => encode_dyn v = EncOk e) vals encs /\
                     bs = List.concat encs
               | EncErr m =>
                   exists pre v post,
                     vals = pre ++ v :: post /\
                     encode_dyn v = EncErr m /\
                     Forall (fun u => exists e, encode_dyn u = EncOk e) pre
               end).
  { clear Hs. induction vals as [|v vals IH]; cbn [Quic.encode_all].
    - exists []. split; [constructor | reflexivity].
    - destruct (encode_dyn v) as [e|m] eqn:Hv.
      + destruct (Quic.encode_all vals) as [rest|m].
        * destruct IH as (encs & Hf & ->). exists (e :: encs).
          split; [constructor; assumption | reflexivity].
        * destruct IH as (pre & u & post & -> & Hu & Hpre).
          exists (v :: pre), u, post.
          split; [reflexivity |]. split; [exact Hu |].
          constructor; [eauto | exact Hpre].
      + exists [], v, vals. split; [reflexivity |].
        split; [exact Hv | constructor]. }
  destruct (Quic.encode_all vals); split; assumption.
Qed.

Lemma ReadQUIC_writeChannel (ctl : Controller.Controller (V := V)) :
  Controller.writeChannel (snd (Controller.ReadQUIC ctl))
  = Controller.writeChannel ctl.
Proof.
  unfold Controller.ReadQUIC, bind, Controller.readAtLeast.
  destruct (ReadAtLeast (Controller.input ctl) (Z.to_nat (quicHeaderLen - 1)))
    as [[header| | | | |] t1]; try reflexivity.
  destruct (header !! 0%nat) as [h0|]; [| reflexivity].
  destruct (header !! 1%nat) as [h1|]; [| reflexivity].
  destruct (header !! 2%nat) as [h2|]; [| reflexivity].
  cbn [Controller.input Controller.with_input].
  destruct (ReadAtLeast t1 (Z.to_nat (hdr_len h1 h2)))
    as [[pl| | | | |] t2]; try reflexivity.
  destruct (negb (length pl =? Z.to_nat (hdr_len h1 h2))%nat);
    [reflexivity |].
  destruct (hdr_cmd h0 =? QuicCmdLog).
  { destruct (decode_string pl); [| reflexivity].
    unfold Controller.QuicLog_send. cbn.
    match goal with |- context [if ?b then _ else _] => destruct b end;
      reflexivity. }
  destruct (hdr_cmd h0 =? QuicCmdBlackbox).
  { destruct (decode_value pl); [| reflexivity].
    unfold Controller.QuicBlackbox_send. cbn.
    match goal with |- context [if ?b then _ else _] => destruct b end;
      reflexivity. }
  unfold Controller.dispatch. cbn.
  match goal with |- context [match ?x with _ => _ end] => destruct x end;
    try reflexivity.
  match goal with |- context [match ?x with _ => _ end] => destruct x end;
    reflexivity.
Qed.

Lemma reader_runs_writeChannel (n : nat) :
  forall ctl : Controller.Controller (V := V),
    Controller.writeChannel (snd (Controller.reader_runs n ctl))
    = Controller.writeChannel ctl.
Proof.
  induction n as [|n IH]; intros ctl; [reflexivity |].
  cbn [Controller.reader_runs]. unfold bind.
  pose proof (ReadQUIC_writeChannel ctl) as Hstep.
  destruct (Controller.ReadQUIC ctl) as [o ctl']. cbn [snd] in Hstep.
  destruct o; cbn [snd]; try exact Hstep.
  rewrite IH. exact Hstep.
Qed.

(** X23: whatever the reader reads while the caller waits and however
    the call ends (a packet, an error reply, the time-out), [SendQUIC]
    has queued for the writer the one frame of its request, header and
    payload, behind what was queued before. *)
Theorem SendQUIC_queues_one_frame :
  forall (window : nat) (c_ : Z) (data : list byte)
         (ctl : Controller.Controller (V := V)),
    Controller.writeChannel (snd (Controller.SendQUIC window c_ data ctl))
    = Controller.writeChannel ctl ++ [send_header c_ data ++ data].
Proof.
  intros window c_ data ctl. unfold Controller.SendQUIC.
  pose proof (reader_runs_writeChannel window
                (Controller.SendQUIC_send c_ data ctl)) as Hrun.
  destruct (Controller.reader_runs window
              (Controller.SendQUIC_send c_ data ctl)) as [o ctl1].
  cbn [snd] in Hrun.
  assert (Hsel : Controller.writeChannel
                   (snd (Controller.SendQUIC_select c_ ctl1))
                 = Controller.writeChannel ctl1).
  { unfold Controller.SendQUIC_select.
    destruct (Controller.quicChannel ctl1 !! c_) as [[|d|p]|];
      try reflexivity.
    destruct (Controller.flag p =? QuicFlagError); [| reflexivity].
    destruct (decode_string (Controller.payload p)); reflexivity. }
  destruct o; cbn [snd]; rewrite ?Hsel; exact Hrun.
Qed.

(** ** The claims that compare the two readers *)

(** C4 (as amended): in package [quic] a header whose command is
    [QuicCmdInvalid] or not below [QuicCmdMax] makes [readPacket] return
    [ErrInvalidCommand]; nothing is put on the [Log] channel, and [read]
    and [Send] hand the error, not a packet, to the caller that waits for
    a reply.  The controller declares no upper sentinel and [ReadQUIC]
    checks no range: for a command that is [QuicCmdInvalid] or beyond the
    last command declared it returns nil, having handed the packet to the
    caller parked on the channel of that command, or dropped it when
    nobody is parked there. *)
Theorem invalid_command_rejected :
  (forall (fuel : nat) (proto proto1 : Quic.QuicProtocol)
          (p : Quic.QuicPacket),
      Quic.readHeader proto = (Ret p, proto1) ->
      Quic.cmd p = QuicCmdInvalid \/ QuicCmdMax <= Quic.cmd p ->
      Quic.readPacket fuel proto = (Fail ErrInvalidCommand, proto1) /\
      Quic.Log proto1 = Quic.Log proto /\
      Quic.read (S fuel) proto = (Fail ErrInvalidCommand, proto1) /\
      (forall (c : Z) (data : list byte) (proto0 : Quic.QuicProtocol),
          Quic.rw_Write (send_header c data ++ data) proto0 = (Ret tt, proto) ->
          Quic.Send (S fuel) c data proto0
          = (Fail ErrInvalidCommand, proto1))) /\
  (forall (ctl : Controller.Controller (V := V)) (h0 h1 h2 : byte)
          (payload more : list byte) (t : list read_event),
      Controller.input ctl = RData (h0 :: h1 :: h2 :: payload ++ more) :: t ->
      hdr_len h1 h2 = Z.of_nat (length payload) ->
      hdr_cmd h0 = QuicCmdInvalid \/ QuicCmdBlackbox < hdr_cmd h0 ->
      fst (Controller.ReadQUIC ctl) = Ret tt /\
      (forall d,
          Controller.quicChannel ctl !! hdr_cmd h0
            = Some (Controller.Parked d) ->
          Controller.ReadQUIC ctl =
          (Ret tt,
           Controller.with_quicChannel
             (Controller.with_input ctl (unread more t))
             (<[hdr_cmd h0 :=
                  Controller.Handed
                    {| Controller.cmd := hdr_cmd h0;
                       Controller.flag := hdr_flag h0;
                       Controller.len := hdr_len h1 h2;
                       Controller.payload := payload |}]>
                (Controller.quicChannel ctl)))) /\
      ((forall d,
           Controller.quicChannel ctl !! hdr_cmd h0
             <> Some (Controller.Parked d)) ->
       Controller.ReadQUIC ctl
       = (Ret tt, Controller.with_input ctl (unread more t)))).
Proof.
  split.
  - intros fuel proto proto1 p Hh Hc.
    assert (Hr : forall f, Quic.readPacket f proto
                           = (Fail ErrInvalidCommand, proto1)).
    { intros f. unfold Quic.readPacket, bind. rewrite Hh.
      replace ((QuicCmdMax <=? Quic.cmd p) || (Quic.cmd p =? QuicCmdInvalid))
        with true; [reflexivity |].
      symmetry. apply orb_true_iff.
      destruct Hc as [Hc | Hc]; [right; lia | left; lia]. }
    assert (Hread : Quic.read (S fuel) proto
                    = (Fail ErrInvalidCommand, proto1)).
    { unfold Quic.read. cbn [Quic.read_loop]. rewrite Hr. reflexivity. }
    split; [apply Hr |]. split; [| split; [exact Hread |]].
    + destruct (readHeader_frame_rule _ _ _ Hh) as [t ->]. reflexivity.
    + intros c data proto0 Hw. unfold Quic.Send, bind.
      rewrite Hw, Hread. reflexivity.
  - intros ctl h0 h1 h2 payload more t Hin Hl Hc.
    assert (Hrun : Controller.ReadQUIC ctl =
                   Controller.dispatch
                     {| Controller.cmd := hdr_cmd h0;
                        Controller.flag := hdr_flag h0;
                        Controller.len := hdr_len h1 h2;
                        Controller.payload := payload |}
                     (Controller.with_input ctl (unread more t))).
    { rewrite (ReadQUIC_frame ctl h0 h1 h2 payload more t Hin Hl).
      replace (hdr_cmd h0 =? QuicCmdLog) with false
        by (symmetry; apply Z.eqb_neq; unfold QuicCmdLog, QuicCmdInvalid,
            QuicCmdBlackbox in *; lia).
      replace (hdr_cmd h0 =? QuicCmdBlackbox) with false
        by (symmetry; apply Z.eqb_neq; unfold QuicCmdInvalid,
            QuicCmdBlackbox in *; lia).
      reflexivity. }
    rewrite Hrun. unfold Controller.dispatch.
    cbn [Controller.cmd Controller.with_input Controller.quicChannel].
    split; [| split].
    + destruct (Controller.quicChannel ctl !! hdr_cmd h0) as [[|d|q]|];
        reflexivity.
    + intros d Hd. rewrite Hd. reflexivity.
    + intros Hnp.
      destruct (Controller.quicChannel ctl !! hdr_cmd h0) as [[|d|q]|] eqn:Hq;
        try reflexivity.
      exfalso. exact (Hnp d eq_refl).
Qed.

(** C7 (as amended): a caller of [SendQUIC] parks on the channel of its
    command with a timer of one second.  When the reader has handed no
    packet over by the time the [select] resumes, the call returns the
    time-out error and the caller waits no more: as long as nobody parks
    on that channel again, a packet for that command finds nobody parked
    and is dropped.  The channel belongs to the command and is used
    again by the next call: the reply that the reader reads only then is
    handed to that next call and returned by it. *)
Theorem timeout_without_reply :
  forall (window : nat) (c_ : Z) (data : list byte)
         (ctl ctl1 : Controller.Controller (V := V)) (o : outcome unit),
    Controller.reader_runs window (Controller.SendQUIC_send c_ data ctl)
      = (o, ctl1) ->
    o <> Fatal ->
    (forall p, Controller.quicChannel ctl1 !! c_
               <> Some (Controller.Handed p)) ->
    Controller.quicChannel (Controller.SendQUIC_send c_ data ctl) !! c_
      = Some (Controller.Parked 1000000000) /\
    exists ctl2,
      Controller.SendQUIC window c_ data ctl
        = (Fail (ErrNew "quic recive timeout"), ctl2) /\
      (forall packet,
          Controller.cmd packet = c_ ->
          Controller.dispatch packet ctl2 = (Ret tt, ctl2)) /\
      (forall n,
          Controller.quicChannel (snd (Controller.reader_runs n ctl2)) !! c_
          = Some Controller.Idle) /\
      (forall (data' : list byte) (h0 h1 h2 : byte)
              (payload more : list byte) (t : list read_event),
          Controller.input ctl2
            = RData (h0 :: h1 :: h2 :: payload ++ more) :: t ->
          hdr_len h1 h2 = Z.of_nat (length payload) ->
          hdr_cmd h0 = c_ ->
          c_ <> QuicCmdLog ->
          c_ <> QuicCmdBlackbox ->
          hdr_flag h0 <> QuicFlagError ->
          fst (Controller.SendQUIC 1 c_ data' ctl2)
          = Ret {| Controller.cmd := c_; Controller.flag := hdr_flag h0;
                   Controller.len := hdr_len h1 h2;
                   Controller.payload := payload |}).
Proof.
  intros window c_ data ctl ctl1 o Hrun Ho Hno. split.
  - unfold Controller.SendQUIC_send. cbn. apply lookup_insert_eq.
  - exists (Controller.with_quicChannel ctl1
              (<[c_ := Controller.Idle]> (Controller.quicChannel ctl1))).
    assert (Hidle : Controller.quicChannel
                      (Controller.with_quicChannel ctl1
                         (<[c_ := Controller.Idle]>
                            (Controller.quicChannel ctl1))) !! c_
                    = Some Controller.Idle).
    { cbn. apply lookup_insert_eq. }
    split; [| split; [| split]].
    + unfold Controller.SendQUIC. rewrite Hrun.
      assert (Hsel : Controller.SendQUIC_select c_ ctl1
                     = (Fail (ErrNew "quic recive timeout"),
                        Controller.with_quicChannel ctl1
                          (<[c_ := Controller.Idle]>
                             (Controller.quicChannel ctl1)))).
      { unfold Controller.SendQUIC_select.
        destruct (Controller.quicChannel ctl1 !! c_) as [[|d|p]|] eqn:Hl;
          try reflexivity.
        exfalso. exact (Hno p eq_refl). }
      destruct o; (exact Hsel || congruence).
    + intros packet Hc. unfold Controller.dispatch.
      rewrite Hc, Hidle. reflexivity.
    + intros n. rewrite reader_runs_not_parked; [exact Hidle |].
      intros d. rewrite Hidle. discriminate.
    + intros data' h0 h1 h2 payload more t Hin Hl Hc Hlog Hbb Hf.
      rewrite (SendQUIC_handoff c_ data' _ h0 h1 h2 payload more t
                 Hin Hl Hc Hlog Hbb Hf).
      reflexivity.
Qed.

End Facts.

Section OnTinyCbor.

Import TinyCbor.

(** C5 (code at the failing input): the frame announces two payload bytes
    and the transport ends after one.  Whatever number of turns the
    payload loop of [readPacket] is given, it has not returned: every turn
    gets [io.EOF] and goes round again, and [ErrShortRead] is not
    returned. *)
Theorem payload_loop_spins_at_end_of_stream :
  forall fuel : nat,
    fst (Quic.readPacket fuel (session Samples.short_payload)) = OutOfFuel.
Proof.
  intros fuel.
  pose proof (readHeader_frame (session Samples.short_payload) 0
                x01 x00 x02 [x07] [] eq_refl) as Hh.
  destruct fuel as [|fuel].
  - rewrite (readPacket_payload_abort 0 _ _ _ OutOfFuel [RData [x07]] Hh);
      reflexivity.
  - rewrite (readPacket_payload_abort (S fuel) _ _ _ OutOfFuel [] Hh);
      [reflexivity | reflexivity | reflexivity | | reflexivity].
    change (Z.to_nat _) with 2%nat.
    change (Quic.payload_loop (S fuel) 2 [] _)
      with (Quic.payload_loop fuel 2 [x07] []).
    apply payload_loop_exhausted. simpl. lia.
Qed.


(** C3 (counterexample): one byte of noise in front of a well-formed frame
    is not skipped; [readHeader] returns [ErrInvalidMagic] and leaves the
    frame unread. *)
Lemma readHeader_does_not_skip_noise :
  Quic.readHeader (session Samples.noise_then_frame) =
  (Fail ErrInvalidMagic,
   Quic.with_rd (session Samples.noise_then_frame)
     [RData [x23; x01; x00; x00]]).
Proof. reflexivity. Qed.

(** C3 (witness): two reads of zero bytes, then a frame; and the same with
    a byte that is not the magic in its place. *)
Lemma readHeader_first_byte_decides_witness :
  Quic.readHeader (session [RData []; RData []; RData [x23; x01; x00; x00]]) =
  (Ret {| Quic.cmd := 1; Quic.flag := 0; Quic.len := 0;
          Quic.Payload := Quic.NilReader |},
   session []) /\
  Quic.readHeader (session [RData []; RData []; RData [x24; x01; x00; x00]]) =
  (Fail ErrInvalidMagic, session [RData [x01; x00; x00]]).
Proof.
  split.
  - apply (readHeader_first_byte_decides
             (session [RData []; RData []; RData [x23; x01; x00; x00]])
             2 x23 x01 x00 x00 [] [] eq_refl).
    reflexivity.
  - apply (readHeader_first_byte_decides
             (session [RData []; RData []; RData [x24; x01; x00; x00]])
             2 x24 x01 x00 x00 [] [] eq_refl).
    discriminate.
Defined.

(** C4 (counterexample): the controller's reader refuses no command.  It
    returns nil for a packet whose command is [QuicCmdInvalid], and a
    caller of [SendQUIC] parked on the channel of command 0, or of
    command 31, which no declaration names, gets the packet. *)
Lemma invalid_command_reaches_waiter :
  fst (Controller.ReadQUIC (Samples.controller [RData [x00; x00; x00]]))
    = Ret tt /\
  fst (Controller.SendQUIC 1 QuicCmdInvalid []
         (Samples.controller [RData [x00; x00; x00]]))
    = Ret {| Controller.cmd := 0; Controller.flag := 0;
             Controller.len := 0; Controller.payload := [] |} /\
  fst (Controller.SendQUIC 1 31 []
         (Samples.controller [RData [x1f; x00; x00]]))
    = Ret {| Controller.cmd := 31; Controller.flag := 0;
             Controller.len := 0; Controller.payload := [] |}.
Proof.
  split; [vm_compute; reflexivity |].
  split; vm_compute; reflexivity.
Qed.

(** C4 (witness): the commands 0 and [QuicCmdMax] of the sample
    declarations in package [quic], and the command 31 in front of the
    controller's reader with nobody parked. *)
Lemma invalid_command_rejected_witness :
  Quic.readPacket 1 (session [RData [x23; x00; x00; x00]])
    = (Fail ErrInvalidCommand, session []) /\
  Quic.readPacket 1 (session [RData [x23; x09; x00; x00]])
    = (Fail ErrInvalidCommand, session []) /\
  Controller.ReadQUIC (Samples.controller [RData [x1f; x00; x00]])
    = (Ret tt, Samples.controller []).
Proof.
  split; [| split].
  - refine (proj1 (proj1 invalid_command_rejected 1%nat _ _
                     {| Quic.cmd := 0; Quic.flag := 0; Quic.len := 0;
                        Quic.Payload := Quic.NilReader |} _ _)).
    + vm_compute. reflexivity.
    + left. reflexivity.
  - refine (proj1 (proj1 invalid_command_rejected 1%nat _ _
                     {| Quic.cmd := 9; Quic.flag := 0; Quic.len := 0;
                        Quic.Payload := Quic.NilReader |} _ _)).
    + vm_compute. reflexivity.
    + right. vm_compute. discriminate.
  - refine (proj2 (proj2 (proj2 invalid_command_rejected
                            (Samples.controller [RData [x1f; x00; x00]])
                            x1f x00 x00 [] [] [] _ _ _)) _).
    + reflexivity.
    + reflexivity.
    + right. vm_compute. reflexivity.
    + intros d. vm_compute. discriminate.
Defined.


(** C2 (witness): the reply carries the [Error] flag and the text "hi". *)
Lemma error_flag_short_circuits_witness :
  Quic.Send 3 QuicCmdGet [x01] (session Samples.error_reply)
  = (Fail (ErrNew "hi"),
     snd (Quic.Send 3 QuicCmdGet [x01] (session Samples.error_reply))).
Proof.
  eapply (proj1 (error_flag_short_circuits 3 0 QuicCmdGet [x01])).
  - vm_compute. reflexivity.
  - vm_compute. reflexivity.
  - reflexivity.
  - vm_compute. reflexivity.
Defined.

(** C6 (code at the failing input): the byte 7 sent as a streaming reply,
    with its terminating sub-frame, is never handed to the caller:
    [readPacket] stops in [bw.Flush()], whose write on the pipe waits for a
    reader; the same byte sent in one frame is returned in the payload. *)
Theorem streamed_payload_blocks :
  forall fuel : nat,
    fst (Quic.readPacket (S fuel) (session Samples.streamed_byte)) = Blocked /\
    fst (Quic.readPacket (S fuel) (session Samples.plain_byte))
    = Ret {| Quic.cmd := 1; Quic.flag := 0; Quic.len := 1;
             Quic.Payload := Quic.BufReader [x07] |}.
Proof.
  intros fuel. split.
  - vm_compute. reflexivity.
  - pose proof (readHeader_frame (session Samples.plain_byte) 0
                  x01 x00 x01 [x07] [] eq_refl) as Hh.
    rewrite (readPacket_reply (S fuel) _ _ _ [x07] [] Hh);
      [reflexivity | reflexivity | reflexivity | | reflexivity | reflexivity].
    apply (payload_loop_chunk fuel [x07] [] []).
Qed.

(** C9 (code at the failing input): a [Log] packet whose payload does not
    decode ends the [Send] that was waiting for its reply with the
    decoder's error, the reply left unread; the same payload in a
    [Blackbox] packet is dropped and the reply is returned.  In the
    controller the [Log] packet ends the process. *)
Theorem log_decode_failure_is_returned :
  fst (Quic.Send 3 QuicCmdGet [x01] (session Samples.bad_log_then_reply))
    = Fail (ErrCodec "cannot unmarshal into a string") /\
  Quic.rd (Quic.rw (snd (Quic.Send 3 QuicCmdGet [x01]
                           (session Samples.bad_log_then_reply))))
    = Samples.get_reply /\
  fst (Quic.Send 3 QuicCmdGet [x01] (session Samples.bad_blackbox_then_reply))
    = Ret {| Quic.cmd := 1; Quic.flag := 0; Quic.len := 2;
             Quic.Payload := Quic.BufReader [x01; x07] |} /\
  fst (Controller.ReadQUIC (Samples.controller Samples.controller_bad_log))
    = Fatal.
Proof. vm_compute. repeat split. Qed.

(** C7 (counterexample): the reply to a call that has timed out is read
    while the next call for the same command waits, and is returned by
    that call; [GetQUIC] for tag 2 then fails on the tag 1 that the reply
    to the earlier call echoes. *)
Lemma late_reply_reaches_next_call :
  fst (Controller.SendQUIC 0 QuicCmdGet [x01]
         (Samples.controller Samples.controller_get_reply))
    = Fail (ErrNew "quic recive timeout") /\
  fst (Controller.SendQUIC 1 QuicCmdGet [x02]
         (snd (Controller.SendQUIC 0 QuicCmdGet [x01]
                 (Samples.controller Samples.controller_get_reply))))
    = Ret {| Controller.cmd := 1; Controller.flag := 0;
             Controller.len := 2; Controller.payload := [x01; x07] |} /\
  fst (Controller.GetQUIC 0 1
         (Samples.controller Samples.controller_get_reply))
    = Fail (ErrNew "quic recive timeout") /\
  fst (Controller.GetQUIC 1 2
         (snd (Controller.GetQUIC 0 1
                 (Samples.controller Samples.controller_get_reply))))
    = Fail (ErrTagMismatch 2 1).
Proof.
  split; [vm_compute; reflexivity |].
  split; [vm_compute; reflexivity |].
  split; vm_compute; reflexivity.
Qed.

(** C7 (witness): while the caller waits the reader reads a log line and
    no reply; the reply is read during the next call, which returns it. *)
Lemma timeout_without_reply_witness :
  fst (Controller.SendQUIC 1 QuicCmdGet [x01]
         (Samples.controller (Samples.log_line
                              ++ Samples.controller_get_reply)))
    = Fail (ErrNew "quic recive timeout") /\
  fst (Controller.SendQUIC 1 QuicCmdGet [x02]
         (snd (Controller.SendQUIC 1 QuicCmdGet [x01]
                 (Samples.controller (Samples.log_line
                                      ++ Samples.controller_get_reply)))))
    = Ret {| Controller.cmd := 1; Controller.flag := 0;
             Controller.len := 2; Controller.payload := [x01; x07] |}.
Proof.
  destruct (timeout_without_reply 1 QuicCmdGet [x01]
              (Samples.controller (Samples.log_line
                                   ++ Samples.controller_get_reply))
              (snd (Controller.reader_runs 1
                      (Controller.SendQUIC_send QuicCmdGet [x01]
                         (Samples.controller
                            (Samples.log_line
                             ++ Samples.controller_get_reply)))))
              (Ret tt))
    as [_ [ctl2 [Hs [_ [_ Hnext]]]]].
  - vm_compute. reflexivity.
  - discriminate.
  - intros p. vm_compute. discriminate.
  - rewrite Hs. cbn [fst snd]. split; [reflexivity |].
    apply (Hnext [x02] x01 x00 x02 [x01; x07] [] []).
    + apply (f_equal snd) in Hs. cbn [snd] in Hs. rewrite <- Hs.
      vm_compute. reflexivity.
    + reflexivity.
    + reflexivity.
    + discriminate.
    + discriminate.
    + vm_compute. discriminate.
Defined.

(** C8 (counterexample): a payload of 65536 bytes is sent, not refused;
    the header written announces a payload of length 0 and all the
    payload bytes follow it. *)
Lemma oversized_payload_is_sent :
  send_header QuicCmdGet Samples.oversized = [x23; x01; x00; x00] /\
  fst (Quic.Send 3 QuicCmdGet Samples.oversized (session Samples.empty_reply))
    = Ret {| Quic.cmd := 1; Quic.flag := 0; Quic.len := 0;
             Quic.Payload := Quic.BufReader [] |} /\
  Z.of_nat (length (Quic.wr (Quic.rw (snd (Quic.Send 3 QuicCmdGet
                                             Samples.oversized
                                             (session Samples.empty_reply))))))
    = 4 + 65536.
Proof.
  split; [vm_compute; reflexivity |].
  split; [vm_compute; reflexivity |].
  vm_compute. reflexivity.
Qed.

(** C8 (witness): a payload of one byte. *)
Lemma send_length_field_wraps_witness :
  exists h1 h2 : byte,
    send_header QuicCmdGet [x07] = [magic_byte; byte_of_Z QuicCmdGet; h1; h2] /\
    hdr_len h1 h2 = 1 /\
    exists proto',
      Quic.rw_Write (send_header QuicCmdGet [x07] ++ [x07])
        (session Samples.empty_reply) = (Ret tt, proto').
Proof.
  destruct (send_length_field_wraps (V := Z) QuicCmdGet [x07])
    as (h1 & h2 & Hh & _ & Hsmall & Hw & _).
  exists h1, h2. split; [exact Hh |]. split.
  - apply Hsmall. vm_compute. discriminate.
  - destruct (Hw (session Samples.empty_reply) eq_refl) as (proto' & Hp & _).
    exists proto'. exact Hp.
Defined.

(** C10 (witness): a session closed by its caller, and a packet with the
    [Exit] flag that arrives afterwards; the same packet read on the open
    session, and the [Close] of the caller afterwards. *)
Lemma Close_twice_panics_witness :
  fst (Quic.Close (session Samples.exit_packet)) = Ret tt /\
  Quic.Close (snd (Quic.Close (session Samples.exit_packet)))
    = (Panic "close of closed channel",
       snd (Quic.Close (session Samples.exit_packet))) /\
  fst (Quic.readPacket 1 (snd (Quic.Close (session Samples.exit_packet))))
    = Panic "close of closed channel" /\
  fst (Quic.Close (snd (Quic.readPacket 1 (session Samples.exit_packet))))
    = Panic "close of closed channel".
Proof.
  destruct Close_twice_panics as [_ [Hopen [Htwice [Hexit Hexit']]]].
  split; [| split; [| split]].
  - rewrite (proj1 (Hopen (session Samples.exit_packet) eq_refl)).
    reflexivity.
  - apply (Htwice (session Samples.exit_packet) (Ret tt)).
    vm_compute. reflexivity.
  - eapply (Hexit 0%nat (session Samples.exit_packet) _ _
              0%nat x61 x00 x00 [] [] []).
    + vm_compute. reflexivity.
    + reflexivity.
    + reflexivity.
    + reflexivity.
    + vm_compute. discriminate.
    + reflexivity.
    + reflexivity.
    + vm_compute. discriminate.
  - refine (proj2 (proj2 (Hexit' 0%nat (session Samples.exit_packet)
                            0%nat x61 x00 x00 [] [] [] _ _ _ _ _ _ _ _))).
    + reflexivity.
    + reflexivity.
    + reflexivity.
    + reflexivity.
    + vm_compute. discriminate.
    + reflexivity.
    + reflexivity.
    + vm_compute. discriminate.
Defined.

(** ** Witnesses of the further properties *)

Ltac side :=
  first [ reflexivity | discriminate | lia | cbn; lia
        | vm_compute; first [ reflexivity | discriminate
                            | split; first [reflexivity | discriminate] ] ].

(** X2 (witness): the frame [Send] writes for a [Get] of tag 1. *)
Lemma sent_frame_read_back_witness :
  Quic.readPacket 1
    (session [RData (send_header QuicCmdGet [x01] ++ [x01] ++ [])])
  = (Ret {| Quic.cmd := QuicCmdGet; Quic.flag := QuicFlagNone;
            Quic.len := Z.of_nat (length [x01]);
            Quic.Payload := Quic.BufReader [x01] |},
     Quic.with_rd
       (session [RData (send_header QuicCmdGet [x01] ++ [x01] ++ [])])
       (unread [] [])).
Proof.
  apply (sent_frame_read_back 0 0 QuicCmdGet [x01] [] []); side.
Defined.

(** X3 (witness): two reads of zero bytes, then the end. *)
Lemma read_at_end_of_stream_witness :
  Quic.read 1 (session [RData []; RData []])
  = (Fail EOF, Quic.with_rd (session [RData []; RData []]) []).
Proof.
  apply (proj1 (read_at_end_of_stream 0 2 (session [RData []; RData []])
                  eq_refl)).
Defined.

(** X4 (witness): a payload of two bytes in two pieces with a read
    time-out before them. *)
Lemma payload_loop_collects_witness :
  fst (Quic.payload_loop 4 2 [] [REOF; RData [x01]; RData [x07; x09]])
  = Ret [x01; x07].
Proof.
  apply (proj1 (payload_loop_collects 2 [REOF; RData [x01]; RData [x07; x09]]
                  eq_refl ltac:(cbn; lia))).
Defined.

(** X5 (witness): the reply to a [Get]. *)
Lemma returned_packet_shape_witness :
  exists b, Quic.Payload
              {| Quic.cmd := 1; Quic.flag := 0; Quic.len := 2;
                 Quic.Payload := Quic.BufReader [x01; x07] |}
            = Quic.BufReader b /\ Z.of_nat (length b) = 2.
Proof.
  refine (proj1 (proj2 (proj2
            (returned_packet_shape 1 (session Samples.get_reply) _
               {| Quic.cmd := 1; Quic.flag := 0; Quic.len := 2;
                  Quic.Payload := Quic.BufReader [x01; x07] |} _))) _).
  - vm_compute. reflexivity.
  - vm_compute. discriminate.
Defined.

(** X6 (witness): a transport whose write side is broken, and one that
    takes the frame. *)
Lemma Send_writes_the_frame_once_witness :
  Quic.Send 1 QuicCmdGet [x01]
    (Quic.NewQuicProtocol
       {| Quic.rd := Samples.get_reply; Quic.wr := [];
          Quic.wr_fail := Some "port closed" |})
  = (Fail (ErrTransport "port closed"),
     Quic.NewQuicProtocol
       {| Quic.rd := Samples.get_reply; Quic.wr := [];
          Quic.wr_fail := Some "port closed" |}) /\
  Quic.wr (Quic.rw (snd (Quic.Send 1 QuicCmdGet [x01]
                           (session Samples.get_reply))))
  = [] ++ send_header QuicCmdGet [x01] ++ [x01].
Proof.
  split.
  - apply (proj1 (Send_writes_the_frame_once 1 QuicCmdGet [x01] _)).
    reflexivity.
  - apply (proj1 (proj2 (Send_writes_the_frame_once 1 QuicCmdGet [x01]
                           (session Samples.get_reply)))).
    reflexivity.
Defined.

(** X7 (witness): a device that answers the query for its information
    with version 7, and one that does not answer. *)
Lemma Info_caches_on_success_witness :
  Quic.info (snd (Quic.Info 1 (session Samples.get_reply)))
    = Some {| QuicProtocolVersion := 7 |} /\
  Quic.info (snd (Quic.Detect 1 (session []))) = None.
Proof.
  split.
  - apply (proj1 (Info_caches_on_success 1 (session Samples.get_reply))).
    vm_compute. reflexivity.
  - apply (proj2 (proj2 (proj2 (proj2
             (Info_caches_on_success 1 (session [])))))
             (snd (Quic.Detect 1 (session [])))).
    vm_compute. reflexivity.
Defined.

(** X8 (witness): the log line "hi" on a new session. *)
Lemma log_packet_is_consumed_witness :
  Quic.queue (Quic.Log (snd (Quic.readPacket 1 (session Samples.log_packet))))
  = ["hi"].
Proof.
  rewrite (log_packet_is_consumed 0 0 (session Samples.log_packet)
             x03 x00 x03 [x62; x68; x69] [] [] [] "hi"); side.
Defined.

(** X9 (witness): the log line "hi" as a streaming packet. *)
Lemma streaming_push_blocks_witness :
  fst (Quic.readPacket 1 (session Samples.streaming_log_packet)) = Blocked.
Proof.
  rewrite (streaming_push_blocks 1 0 (session Samples.streaming_log_packet)
             x43 x00 x03 [x62; x68; x69] [] []); try side.
  - unfold Quic.bufio_size. cbn [length]. lia.
  - left. vm_compute. reflexivity.
Defined.

(** X10 (witness): two telemetry frames, the second with a payload that
    is no CBOR item, then the reply. *)
Lemma read_skips_pushed_telemetry_witness :
  fst (Quic.read 3
         (session [RData (sent_frames QuicCmdBlackbox [[x07]; [xff]] ++
                          send_header QuicCmdGet [x01; x07] ++
                          [x01; x07] ++ [])]))
  = Ret {| Quic.cmd := QuicCmdGet; Quic.flag := QuicFlagNone;
           Quic.len := 2; Quic.Payload := Quic.BufReader [x01; x07] |}.
Proof.
  rewrite (read_skips_pushed_telemetry [[x07]; [xff]] 3 QuicCmdGet
             [x01; x07] [] []); try side.
  repeat constructor; cbn; lia.
Defined.

(** X12 (witness): a [Get] of tag 1 answered with the value 7. *)
Lemma GetValue_round_trip_witness :
  fst (Quic.GetValue 1 1 (session Samples.get_reply)) = Ret 7.
Proof.
  rewrite (GetValue_round_trip 0 0 1 [x01] 7 (session Samples.get_reply)
             x01 x00 x02 [x01; x07] [] [] [] []); side.
Defined.

(** X19 (witness): a [Set] of tag 1 to 9, which the device answers with
    the value 7. *)
Lemma SetValue_round_trip_witness :
  fst (Quic.SetValue 1 1 9 (session Samples.get_reply)) = Ret 7.
Proof.
  rewrite (SetValue_round_trip 0 0 1 [x01] [x09] 9 7
             (session Samples.get_reply)
             x01 x00 x02 [x01; x07] [] [] [] []); side.
Defined.

(** X17 (witness): the byte 7 as a streaming reply. *)
Lemma streamed_reply_blocks_witness :
  fst (Quic.readPacket 1 (session Samples.streamed_byte)) = Blocked.
Proof.
  rewrite (streamed_reply_blocks 0 0 (session Samples.streamed_byte)
             x41 x00 x01 x41 x00 x00 [x07] [] []); try side.
  unfold Quic.bufio_size. cbn [length]. lia.
Defined.

(** X18 (witness): a streaming reply without payload. *)
Lemma empty_stream_is_returned_witness :
  fst (Quic.readPacket 1 (session Samples.streamed_nothing))
  = Ret {| Quic.cmd := 1; Quic.flag := 2; Quic.len := 0;
           Quic.Payload := Quic.PipeReader true |}.
Proof.
  rewrite (empty_stream_is_returned 0 0 (session Samples.streamed_nothing)
             x41 x00 x00 x41 x00 x00 [] []); side.
Defined.

(** X20 (witness): two of three payload bytes, then a failure. *)
Lemma payload_loop_returns_transport_error_witness :
  Quic.payload_loop 4 3 [] Samples.broken_payload
  = (Fail (ErrTransport "device removed"), [RData [x09]]).
Proof.
  apply (payload_loop_returns_transport_error 3 "device removed"
           [RData [x01]; REOF; RData [x07]] [RData [x09]]).
  - reflexivity.
  - cbn. lia.
Defined.

(** X13 (witness): the reply to [Get] read while the caller waits. *)
Lemma SendQUIC_receives_reply_witness :
  fst (Controller.SendQUIC 1 QuicCmdGet [x01]
         (Samples.controller Samples.controller_get_reply))
  = Ret {| Controller.cmd := QuicCmdGet; Controller.flag := hdr_flag x01;
           Controller.len := hdr_len x00 x02;
           Controller.payload := [x01; x07] |}.
Proof.
  apply (proj1 (SendQUIC_receives_reply QuicCmdGet [x01]
                  (Samples.controller Samples.controller_get_reply)
                  x01 x00 x02 [x01; x07] [] []
                  eq_refl eq_refl eq_refl
                  ltac:(discriminate) ltac:(discriminate)
                  ltac:(vm_compute; discriminate))).
Defined.

(** X14 (witness): a [GetQUIC] of tag 1 answered with the value 7. *)
Lemma GetQUIC_round_trip_witness :
  fst (Controller.GetQUIC 1 1
         (Samples.controller Samples.controller_get_reply)) = Ret 7.
Proof.
  apply (GetQUIC_round_trip 1 [x01] 7
           (Samples.controller Samples.controller_get_reply)
           x01 x00 x02 [x01; x07] [] [x07] [] []); side.
Defined.

(** X15 (witness): a reply to [Get] with no call under way. *)
Lemma ReadQUIC_drops_unawaited_witness :
  Controller.ReadQUIC (Samples.controller Samples.controller_get_reply)
  = (Ret tt,
     Controller.with_input
       (Samples.controller Samples.controller_get_reply) (unread [] [])).
Proof.
  apply (ReadQUIC_drops_unawaited
           (Samples.controller Samples.controller_get_reply)
           x01 x00 x02 [x01; x07] [] []); side.
Defined.

(** X16 (witness): the log line "hi", and a log packet that does not
    decode. *)
Lemma ReadQUIC_log_line_witness :
  Controller.QuicLog
    (snd (Controller.ReadQUIC (Samples.controller Samples.log_line)))
  = ["hi"] /\
  fst (Controller.ReadQUIC (Samples.controller Samples.controller_bad_log))
  = Fatal.
Proof.
  split.
  - rewrite (proj1 (ReadQUIC_log_line (Samples.controller Samples.log_line)
                      x03 x00 x03 [x62; x68; x69] [] []
                      eq_refl eq_refl eq_refl) "hi" []); side.
  - rewrite (proj2 (ReadQUIC_log_line
                      (Samples.controller Samples.controller_bad_log)
                      x03 x00 x01 [xff] [] []
                      eq_refl eq_refl eq_refl)
               "cannot unmarshal into a string"); side.
Defined.

End OnTinyCbor.
